(** * The cast session coordinator ([src/session.ts])

    A shallow embedding of the [CastSession] Durable Object: its in-memory
    record, the durable copy of that record, the map of attached WebSockets,
    the [fetch] dispatcher with every route, the WebSocket callbacks and the
    [broadcast] helper.  Every handler is a function from the state before the
    request to an outcome, the state after it and the ordered list of side
    effects (upstream calls, storage writes, socket sends) it performed. *)

From Stdlib Require Import String Ascii List ZArith Bool Arith Lia.
Import ListNotations.
Open Scope string_scope.

(** ** JavaScript built-ins used by the coordinator *)
Module JS.

(** JSON values.  Objects keep their properties in insertion order. *)
#[local] Set Warnings "-register-all".
Inductive JSON : Type :=
| JNull
| JBool (b : bool)
| JNum (n : Z)
| JStr (s : string)
| JArr (items : list JSON)
| JObj (props : list (string * JSON)).

(** An object literal.  A property whose value is [undefined] (here [None])
    does not survive [JSON.stringify] / [Response.json], so it is dropped. *)
Fixpoint literal (props : list (string * option JSON)) : list (string * JSON) :=
  match props with
  | [] => []
  | (k, Some v) :: rest => (k, v) :: literal rest
  | (_, None) :: rest => literal rest
  end.

Definition obj (props : list (string * option JSON)) : JSON := JObj (literal props).

Definition str (s : string) : option JSON := Some (JStr s).

(** [v.k] on a value that is neither [null] nor [undefined]: the property of
    an object, [undefined] on anything else. *)
Definition prop (v : JSON) (k : string) : option JSON :=
  match v with
  | JObj props => option_map snd (find (fun p => String.eqb (fst p) k) props)
  | _ => None
  end.

(** A value read into a field declared [string]; a value of another type is
    outside the declared type and reads as [undefined]. *)
Definition as_string (v : option JSON) : option string :=
  match v with
  | Some (JStr s) => Some s
  | _ => None
  end.

(** [`${x}`] for [x : string | undefined]. *)
Definition template (x : option string) : string :=
  match x with
  | Some s => s
  | None => "undefined"
  end.

(** Truthiness of [x : string | undefined]: the empty string is falsy. *)
Definition truthy (x : option string) : bool :=
  match x with
  | Some s => negb (String.eqb s "")
  | None => false
  end.

(** [x || d] for [x : string | undefined | null]. *)
Definition or_else (x : option string) (d : string) : string :=
  match x with
  | Some s => if String.eqb s "" then d else s
  | None => d
  end.

(** [a === b] where [a : string | null] and [b : string]. *)
Definition strict_eq (a : option string) (b : string) : bool :=
  match a with
  | Some s => String.eqb s b
  | None => false
  end.

(** [String.prototype.endsWith]. *)
Definition endsWith (s suffix : string) : bool :=
  let n := String.length s in
  let m := String.length suffix in
  (m <=? n)%nat && String.eqb (substring (n - m) m s) suffix.

(** [String.prototype.includes]. *)
Fixpoint includes (s sub : string) : bool :=
  prefix sub s ||
  match s with
  | EmptyString => false
  | String _ s' => includes s' sub
  end.

(** [String.prototype.slice(0, n)]. *)
Definition slice0 (n : nat) (s : string) : string := substring 0 n s.

(** [Array.prototype.includes] on an array of strings. *)
Definition array_includes (xs : list string) (x : string) : bool :=
  existsb (String.eqb x) xs.

(** [Array.prototype.push]. *)
Definition push (xs : list string) (x : string) : list string := xs ++ [x].

(** A [Map] keyed by object identity, iterated in insertion order. *)
Section MapOps.
Context {V : Type}.

Fixpoint map_set (k : nat) (v : V) (m : list (nat * V)) : list (nat * V) :=
    match m with
    | [] => [(k, v)]
    | (k', v') :: m' =>
        if Nat.eqb k k' then (k, v) :: m' else (k', v') :: map_set k v m'
    end.

Definition map_get (k : nat) (m : list (nat * V)) : option V :=
    option_map snd (find (fun e => Nat.eqb (fst e) k) m).

Definition map_delete (k : nat) (m : list (nat * V)) : list (nat * V) :=
    filter (fun e => negb (Nat.eqb (fst e) k)) m.
End MapOps.

End JS.
Import JS.

Arguments endsWith : simpl never.

(** ** Data model *)

(** [interface SessionData].  Optional fields are [option]s. *)
Record SessionData : Type := mkSessionData {
  sessionId : string;
  createdAt : Z;
  casterToken : option string;
  callsSessionId : option string;
  trackNames : option (list string)
}.

(** A WebSocket is identified by the object itself; sockets are numbered. *)
Definition Socket : Type := nat.

Inductive ReadyState : Type := CONNECTING | OPEN | CLOSING | CLOSED.

Definition is_open (r : ReadyState) : bool :=
  match r with
  | OPEN => true
  | _ => false
  end.

(** The object's fields, and the durable value stored under the key
    [sessionData].  The role is kept as the raw string of the query. *)
Record State : Type := mkState {
  sessions : list (Socket * string);
  sessionData : option SessionData;
  storage : option SessionData
}.

(** A freshly created object over empty storage. *)
Definition initial : State :=
  {| sessions := []; sessionData := None; storage := None |}.

(** ** Requests, responses and the outside world *)

(** The parsed request body, by the type each handler casts it to.  A body of
    another shape is outside the handler's declared type. *)
Inductive Body : Type :=
| NoBody
| InitConnectionBody (callsSessionId : string) (sessionDescription : JSON)
| RenegotiateBody (callsSessionId : string) (sessionDescription : option JSON)
| AddTrackBody (callsSessionId trackName : string) (mid kind : option string)
    (sessionDescription : option JSON)
| PullTracksBody (viewerSessionId : string) (trackName : option string)
| ViewerRenegotiateBody (viewerSessionId : string) (sessionDescription : option JSON)
| RemoveTrackBody (trackName : string)
| ViewerCallsStateBody (viewerSessionId : string).

Record Request : Type := mkRequest {
  upgrade : option string;
  method : string;
  pathname : string;
  role : option string;
  authorization : option string;
  body : Body
}.

Inductive ResponseBody : Type :=
| Text (s : string)
| Json (v : JSON)
| Empty.

Record Response : Type := mkResponse {
  status : nat;
  content : ResponseBody;
  webSocket : option Socket
}.

(** A call to the Calls (SFU) HTTP API and its answer. *)
Record UpstreamRequest : Type := mkUpstreamRequest {
  u_url : string;
  u_method : string;
  u_authorization : string;
  u_contentType : option string;
  u_body : option JSON
}.

Record UpstreamResponse : Type := mkUpstreamResponse {
  u_status : nat;
  u_text : string;
  u_json : JSON
}.

(** [Response.ok]: the status is in the range 200-299. *)
Definition ok (r : UpstreamResponse) : bool :=
  (200 <=? u_status r)%nat && (u_status r <=? 299)%nat.

(** What the platform supplies during one callback: the object's id, the
    bindings, the random token, the clock, the next [WebSocketPair], the
    Calls API and the ready state of every socket. *)
Record World : Type := mkWorld {
  idString : string;
  CALLS_APP_ID : string;
  CALLS_APP_SECRET : string;
  randomUUID : string;
  now : Z;
  pair : Socket * Socket;
  upstream : UpstreamRequest -> UpstreamResponse;
  readyState : Socket -> ReadyState
}.

(** Side effects, in the order the handler performs them. *)
Inductive Effect : Type :=
| EFetch (r : UpstreamRequest)
| EPut (d : SessionData)
| EAccept (s : Socket)
| ESend (s : Socket) (message : JSON)
| EClose (s : Socket) (code : nat) (reason : string).

Inductive Outcome : Type :=
| Returned (r : Response)
| Threw.

Record Result : Type := mkResult {
  outcome : Outcome;
  after : State;
  effects : list Effect
}.

(** ** Helpers shared by the handlers *)

Definition respond (r : Response) (st : State) (fx : list Effect) : Result :=
  {| outcome := Returned r; after := st; effects := fx |}.

(** The promise of the handler rejects: [request.json()] gave no body of the
    type the handler declares, or a property of [null] was read. *)
Definition throw (st : State) (fx : list Effect) : Result :=
  {| outcome := Threw; after := st; effects := fx |}.

(** [new Response(text, { status })]. *)
Definition plain (s : string) (code : nat) : Response :=
  {| status := code; content := Text s; webSocket := None |}.

(** [Response.json(v)]. *)
Definition json_response (v : JSON) : Response :=
  {| status := 200; content := Json v; webSocket := None |}.

(** [request.method === m && url.pathname.endsWith(suffix)]. *)
Definition route (req : Request) (m suffix : string) : bool :=
  String.eqb (method req) m && endsWith (pathname req) suffix.

(** The guard of every caster endpoint,
    [!this.sessionData || auth !== `Bearer ${this.sessionData.casterToken}`],
    returning the record when the guard lets the request through. *)
Definition bearer (st : State) (req : Request) : option SessionData :=
  match sessionData st with
  | None => None
  | Some d =>
      if strict_eq (authorization req) ("Bearer " ++ template (casterToken d))
      then Some d
      else None
  end.

(** [this.sessionData.trackNames || []]. *)
Definition track_list (d : SessionData) : list string :=
  match trackNames d with
  | Some names => names
  | None => []
  end.

(** Truthiness of an optional JSON value ([if (sessionDescription)]). *)
Definition truthy_json (v : option JSON) : bool :=
  match v with
  | None | Some JNull | Some (JBool false) => false
  | Some (JNum n) => negb (Z.eqb n 0)
  | Some (JStr s) => negb (String.eqb s "")
  | Some _ => true
  end.

Definition when (c : bool) (v : option JSON) : option JSON :=
  if c then v else None.

(** Assignment to [this.sessionData] and [ctx.storage.put("sessionData", ...)]. *)
Definition assign (st : State) (d : SessionData) : State :=
  {| sessions := sessions st; sessionData := Some d; storage := storage st |}.

Definition put (st : State) : State :=
  {| sessions := sessions st; sessionData := sessionData st;
     storage := sessionData st |}.

Definition set_callsSessionId (d : SessionData) (v : option string) : SessionData :=
  {| sessionId := sessionId d; createdAt := createdAt d;
     casterToken := casterToken d; callsSessionId := v;
     trackNames := trackNames d |}.

Definition set_trackNames (d : SessionData) (v : list string) : SessionData :=
  {| sessionId := sessionId d; createdAt := createdAt d;
     casterToken := casterToken d; callsSessionId := callsSessionId d;
     trackNames := Some v |}.

(** A request to the Calls API of this application. *)
Definition calls (w : World) (m path : string) (contentType : option string)
    (b : option JSON) : UpstreamRequest :=
  {| u_url := "https://rtc.live.cloudflare.com/v1/apps/" ++ CALLS_APP_ID w ++ path;
     u_method := m;
     u_authorization := "Bearer " ++ CALLS_APP_SECRET w;
     u_contentType := contentType;
     u_body := b |}.

Definition json_type : option string := Some "application/json".

(** [private broadcast(message)]: one send per attached socket that is open,
    in the iteration order of the map. *)
Definition broadcast (w : World) (st : State) (message : JSON) : list Effect :=
  flat_map
    (fun entry : Socket * string =>
       if is_open (readyState w (fst entry))
       then [ESend (fst entry) message]
       else [])
    (sessions st).

(** ** The routes of [fetch] *)

(** WebSocket upgrade: accept the server end, register it, push the snapshot
    when a record exists, answer 101 with the client end. *)
Definition handle_upgrade (w : World) (st : State) (req : Request) : Result :=
  let client := fst (pair w) in
  let server := snd (pair w) in
  let st1 := {| sessions := map_set server (or_else (role req) "viewer") (sessions st);
                sessionData := sessionData st;
                storage := storage st |} in
  let snapshot :=
    match sessionData st with
    | Some d =>
        [ESend server
           (obj [("type", str "session-data");
                 ("data", Some (obj [("sessionId", str (sessionId d));
                                     ("callsSessionId", option_map JStr (callsSessionId d));
                                     ("trackNames", Some (JArr (map JStr (track_list d))))]))])]
    | None => []
    end in
  respond {| status := 101; content := Empty; webSocket := Some client |}
          st1 (EAccept server :: snapshot).

(** [POST .../init]. *)
Definition handle_init (w : World) (st : State) : Result :=
  let reply (d : SessionData) :=
    json_response (obj [("sessionId", str (sessionId d));
                        ("casterToken", option_map JStr (casterToken d))]) in
  match sessionData st with
  | None =>
      let d := {| sessionId := slice0 8 (idString w);
                  createdAt := now w;
                  casterToken := Some (randomUUID w);
                  callsSessionId := None;
                  trackNames := None |} in
      respond (reply d) (put (assign st d)) [EPut d]
  | Some d => respond (reply d) st []
  end.

(** [POST .../calls-session]. *)
Definition handle_calls_session (w : World) (st : State) (req : Request) : Result :=
  match bearer st req with
  | None => respond (plain "Unauthorized" 401) st []
  | Some d =>
      let rq := calls w "POST" "/sessions/new" json_type None in
      let callsResponse := upstream w rq in
      if negb (ok callsResponse)
      then respond (plain "Failed to create Calls session" 500) st [EFetch rq]
      else
        match u_json callsResponse with
        | JNull => throw st [EFetch rq]
        | callsData =>
            let d' := set_callsSessionId d (as_string (prop callsData "sessionId")) in
            let st' := put (assign st d') in
            respond
              (json_response
                 (obj [("sessionId", prop callsData "sessionId");
                       ("sessionDescription", prop callsData "sessionDescription")]))
              st'
              ([EFetch rq; EPut d'] ++
               broadcast w st' (obj [("type", str "calls-session-ready");
                                     ("sessionId", prop callsData "sessionId")]))
        end
  end.

(** [POST .../init-connection]. *)
Definition handle_init_connection (w : World) (st : State) (req : Request) : Result :=
  match bearer st req with
  | None => respond (plain "Unauthorized" 401) st []
  | Some _ =>
      match body req with
      | InitConnectionBody callsSessionId sessionDescription =>
          let rq := calls w "PUT" ("/sessions/" ++ callsSessionId ++ "/renegotiate")
                      json_type
                      (Some (obj [("sessionDescription", Some sessionDescription)])) in
          let renegResponse := upstream w rq in
          if negb (ok renegResponse)
          then respond (plain ("Failed to init connection: " ++ u_text renegResponse) 500)
                       st [EFetch rq]
          else respond (json_response (u_json renegResponse)) st [EFetch rq]
      | _ => throw st []
      end
  end.

(** [POST .../renegotiate]. *)
Definition handle_renegotiate (w : World) (st : State) (req : Request) : Result :=
  match bearer st req with
  | None => respond (plain "Unauthorized" 401) st []
  | Some _ =>
      match body req with
      | RenegotiateBody callsSessionId sessionDescription =>
          let renegBody :=
            if truthy_json sessionDescription
            then obj [("sessionDescription", sessionDescription)]
            else obj [] in
          let rq := calls w "PUT" ("/sessions/" ++ callsSessionId ++ "/renegotiate")
                      json_type (Some renegBody) in
          let renegResponse := upstream w rq in
          if negb (ok renegResponse)
          then respond (plain ("Failed to renegotiate: " ++ u_text renegResponse) 500)
                       st [EFetch rq]
          else respond (json_response (u_json renegResponse)) st [EFetch rq]
      | _ => throw st []
      end
  end.

(** The upstream request of add-track: [trackRequestBody] with the optional
    [sessionDescription], [mid] and [kind], posted to [tracks/new]. *)
Definition add_track_call (w : World) (callsSessionId trackName : string)
    (mid kind : option string) (sessionDescription : option JSON) : UpstreamRequest :=
  let track :=
    obj [("location", str "local");
         ("trackName", str trackName);
         ("mid", when (truthy mid) (option_map JStr mid));
         ("kind", when (truthy kind) (option_map JStr kind))] in
  let trackRequestBody :=
    obj [("tracks", Some (JArr [track]));
         ("sessionDescription",
          when (truthy_json sessionDescription) sessionDescription)] in
  calls w "POST" ("/sessions/" ++ callsSessionId ++ "/tracks/new")
        json_type (Some trackRequestBody).

(** [POST .../add-track]. *)
Definition handle_add_track (w : World) (st : State) (req : Request) : Result :=
  match bearer st req with
  | None => respond (plain "Unauthorized" 401) st []
  | Some d =>
      match body req with
      | AddTrackBody callsSessionId trackName mid kind sessionDescription =>
          let rq := add_track_call w callsSessionId trackName mid kind sessionDescription in
          let trackResponse := upstream w rq in
          if negb (ok trackResponse)
          then respond (plain ("Failed to add track: " ++ u_text trackResponse) 500)
                       st [EFetch rq]
          else
            let trackData := u_json trackResponse in
            let names := track_list d in
            let names' :=
              if negb (array_includes names trackName)
              then push names trackName
              else names in
            let d' := set_trackNames d names' in
            let st' := put (assign st d') in
            respond (json_response trackData) st'
                    ([EFetch rq; EPut d'] ++
                     broadcast w st' (obj [("type", str "track-added");
                                           ("trackName", str trackName)]))
      | _ => throw st []
      end
  end.

(** [POST .../new-session]. *)
Definition handle_new_session (w : World) (st : State) : Result :=
  let rq := calls w "POST" "/sessions/new" None None in
  let callsResponse := upstream w rq in
  if negb (ok callsResponse)
  then respond (plain ("Failed to create new session: " ++ u_text callsResponse) 500)
               st [EFetch rq]
  else respond (json_response (u_json callsResponse)) st [EFetch rq].

(** [POST .../pull-tracks]. *)
Definition handle_pull_tracks (w : World) (st : State) (req : Request) : Result :=
  match body req with
  | PullTracksBody viewerSessionId trackName =>
      match sessionData st with
      | None => respond (plain "No active session" 404) st []
      | Some d =>
          if negb (truthy (callsSessionId d))
          then respond (plain "No active session" 404) st []
          else
            let rq :=
              calls w "POST" ("/sessions/" ++ viewerSessionId ++ "/tracks/new") json_type
                (Some (obj [("tracks",
                             Some (JArr [obj [("location", str "remote");
                                              ("sessionId", option_map JStr (callsSessionId d));
                                              ("trackName", str (or_else trackName "*"))]]))])) in
            let pullResponse := upstream w rq in
            if negb (ok pullResponse)
            then respond (plain "Failed to pull tracks" 500) st [EFetch rq]
            else respond (json_response (u_json pullResponse)) st [EFetch rq]
      end
  | _ => throw st []
  end.

(** [POST .../viewer-renegotiate]. *)
Definition handle_viewer_renegotiate (w : World) (st : State) (req : Request) : Result :=
  match body req with
  | ViewerRenegotiateBody viewerSessionId sessionDescription =>
      let path := "/sessions/" ++ viewerSessionId ++ "/renegotiate" in
      let rq :=
        if truthy_json sessionDescription
        then calls w "PUT" path json_type
               (Some (obj [("sessionDescription", sessionDescription)]))
        else calls w "PUT" path None None in
      let renegResponse := upstream w rq in
      if negb (ok renegResponse)
      then respond (plain ("Failed to renegotiate: " ++ u_text renegResponse) 500)
                   st [EFetch rq]
      else respond (json_response (u_json renegResponse)) st [EFetch rq]
  | _ => throw st []
  end.

(** [POST .../remove-track]. *)
Definition handle_remove_track (w : World) (st : State) (req : Request) : Result :=
  match bearer st req with
  | None => respond (plain "Unauthorized" 401) st []
  | Some d =>
      match body req with
      | RemoveTrackBody trackName =>
          let written :=
            match trackNames d with
            | Some names =>
                let d' := set_trackNames d
                            (filter (fun tn => negb (String.eqb tn trackName)) names) in
                (put (assign st d'), [EPut d'])
            | None => (st, [])
            end in
          let st' := fst written in
          respond (json_response (obj [("success", Some (JBool true))])) st'
                  (snd written ++
                   broadcast w st' (obj [("type", str "track-removed");
                                         ("trackName", str trackName)]))
      | _ => throw st []
      end
  end.

(** [GET .../info]. *)
Definition handle_info (st : State) : Result :=
  match sessionData st with
  | None => respond (json_response (obj [("ready", Some (JBool false))])) st []
  | Some d =>
      if negb (truthy (callsSessionId d))
      then respond (json_response (obj [("ready", Some (JBool false))])) st []
      else respond
             (json_response
                (obj [("ready", Some (JBool true));
                      ("callsSessionId", option_map JStr (callsSessionId d));
                      ("trackNames", Some (JArr (map JStr (track_list d))))]))
             st []
  end.

(** [GET .../calls-state]. *)
Definition handle_calls_state (w : World) (st : State) (req : Request) : Result :=
  match bearer st req with
  | None => respond (plain "Unauthorized" 401) st []
  | Some d =>
      if negb (truthy (callsSessionId d))
      then respond (json_response (obj [("error", str "No Calls session")])) st []
      else
        let rq := calls w "GET" ("/sessions/" ++ template (callsSessionId d)) None None in
        let stateResponse := upstream w rq in
        if negb (ok stateResponse)
        then respond (plain ("Failed to get state: " ++ u_text stateResponse) 500)
                     st [EFetch rq]
        else respond (json_response (u_json stateResponse)) st [EFetch rq]
  end.

(** [POST .../viewer-calls-state]. *)
Definition handle_viewer_calls_state (w : World) (st : State) (req : Request) : Result :=
  match body req with
  | ViewerCallsStateBody viewerSessionId =>
      let rq := calls w "GET" ("/sessions/" ++ viewerSessionId) None None in
      let stateResponse := upstream w rq in
      if negb (ok stateResponse)
      then respond (plain ("Failed to get state: " ++ u_text stateResponse) 500)
                   st [EFetch rq]
      else respond (json_response (u_json stateResponse)) st [EFetch rq]
  | _ => throw st []
  end.

(** [async fetch(request)]: the upgrade test first, then the routes in the
    order of the source, then 404. *)
Definition fetch (w : World) (st : State) (req : Request) : Result :=
  if strict_eq (upgrade req) "websocket" then handle_upgrade w st req
  else if route req "POST" "/init" then handle_init w st
  else if route req "POST" "/calls-session" then handle_calls_session w st req
  else if route req "POST" "/init-connection" then handle_init_connection w st req
  else if route req "POST" "/renegotiate" then handle_renegotiate w st req
  else if route req "POST" "/add-track" then handle_add_track w st req
  else if route req "POST" "/new-session" then handle_new_session w st
  else if route req "POST" "/pull-tracks" then handle_pull_tracks w st req
  else if route req "POST" "/viewer-renegotiate" then handle_viewer_renegotiate w st req
  else if route req "POST" "/remove-track" then handle_remove_track w st req
  else if route req "GET" "/info" then handle_info st
  else if route req "GET" "/calls-state" then handle_calls_state w st req
  else if route req "POST" "/viewer-calls-state" then handle_viewer_calls_state w st req
  else respond (plain "Not Found" 404) st [].

(** ** WebSocket callbacks, restart, and runs of the object *)

(** A frame received on a socket: [string | ArrayBuffer]. *)
Inductive Message : Type :=
| Binary
| Str (payload : string).

Section Callbacks.

(** [JSON.parse]: [None] when it throws a [SyntaxError]. *)
Variable JSON_parse : string -> option JSON.

(** The relay loop of [webSocketMessage]: one send of the parsed value
    (serialised again) per attached socket other than the sender that is open. *)
Definition relay (w : World) (st : State) (ws : Socket) (data : JSON) : list Effect :=
  flat_map
    (fun entry : Socket * string =>
       if negb (Nat.eqb (fst entry) ws) && is_open (readyState w (fst entry))
       then [ESend (fst entry) data]
       else [])
    (sessions st).

(** [async webSocketMessage(ws, message)].  A parse error and the [TypeError]
    of [null.type] are caught inside the callback; neither sends anything. *)
Definition webSocketMessage (w : World) (st : State) (ws : Socket) (message : Message)
    : list Effect :=
  match message with
  | Binary => []
  | Str payload =>
      match JSON_parse payload with
      | None => []
      | Some data =>
          match map_get ws (sessions st) with
          | None => []
          | Some _ =>
              match data with
              | JNull => []
              | _ =>
                  match prop data "type" with
                  | Some (JStr t) => if String.eqb t "signal" then relay w st ws data else []
                  | _ => []
                  end
              end
          end
      end
  end.

(** [async webSocketClose(ws, code, reason, wasClean)]. *)
Definition webSocketClose (st : State) (ws : Socket) (code : nat) (reason : string)
    : State * list Effect :=
  ({| sessions := map_delete ws (sessions st);
      sessionData := sessionData st;
      storage := storage st |},
   [EClose ws code reason]).

(** [async webSocketError(ws, error)]. *)
Definition webSocketError (st : State) (ws : Socket) : State :=
  {| sessions := map_delete ws (sessions st);
     sessionData := sessionData st;
     storage := storage st |}.

(** The constructor after an eviction: the socket map starts empty and the
    record is read back from storage. *)
Definition restart (st : State) : State :=
  {| sessions := []; sessionData := storage st; storage := storage st |}.

End Callbacks.

(** Everything that can happen to one object. *)
Inductive Event : Type :=
| Fetch (w : World) (req : Request)
| OnMessage (w : World) (ws : Socket) (message : Message)
| OnClose (ws : Socket) (code : nat) (reason : string)
| OnError (ws : Socket)
| Restart.

(** The state after one event.  [webSocketMessage] only sends. *)
Definition step (st : State) (ev : Event) : State :=
  match ev with
  | Fetch w req => after (fetch w st req)
  | OnMessage _ _ _ => st
  | OnClose ws code reason => fst (webSocketClose st ws code reason)
  | OnError ws => webSocketError st ws
  | Restart => restart st
  end.

(** The effects of one event, given [JSON.parse]. *)
Definition emitted (JSON_parse : string -> option JSON) (st : State) (ev : Event)
    : list Effect :=
  match ev with
  | Fetch w req => effects (fetch w st req)
  | OnMessage w ws message => webSocketMessage JSON_parse w st ws message
  | OnClose ws code reason => snd (webSocketClose st ws code reason)
  | OnError _ => []
  | Restart => []
  end.

(** The state after a sequence of events, the platform serialising them. *)
Definition run (st : State) (evs : list Event) : State :=
  fold_left step evs st.

(** A state the object can be in: some sequence of events leads to it from a
    fresh object over empty storage. *)
Definition reachable (st : State) : Prop :=
  exists evs, run initial evs = st.

(** The sends and the storage writes among a list of effects. *)
Fixpoint sends (fx : list Effect) : list (Socket * JSON) :=
  match fx with
  | [] => []
  | ESend s message :: rest => (s, message) :: sends rest
  | _ :: rest => sends rest
  end.

Fixpoint writes (fx : list Effect) : list SessionData :=
  match fx with
  | [] => []
  | EPut d :: rest => d :: writes rest
  | _ :: rest => writes rest
  end.

(** The sockets a broadcast reaches: attached and open, in map order. *)
Definition open_sockets (w : World) (st : State) : list Socket :=
  filter (fun s => is_open (readyState w s)) (map fst (sessions st)).


(** ** Vocabulary of the properties *)

(** The request is dispatched by [fetch] to the route [m suffix]: it is not a
    WebSocket upgrade, its method is [m] and its path ends with [suffix]. *)
Definition is_route (req : Request) (m suffix : string) : Prop :=
  strict_eq (upgrade req) "websocket" = false /\
  method req = m /\
  endsWith (pathname req) suffix = true.

(** The request is a channel attach. *)
Definition is_attach (req : Request) : Prop :=
  upgrade req = Some "websocket".

(** The caster endpoints that act on the session: create SFU session, the two
    renegotiation calls, add track, remove track. *)
Definition mutating (req : Request) : Prop :=
  is_route req "POST" "/calls-session" \/
  is_route req "POST" "/init-connection" \/
  is_route req "POST" "/renegotiate" \/
  is_route req "POST" "/add-track" \/
  is_route req "POST" "/remove-track".

(** The request carries [Authorization: Bearer <casterToken>] of the
    initialized session [d]. *)
Definition valid_token (st : State) (req : Request) (d : SessionData) : Prop :=
  sessionData st = Some d /\
  exists tok, casterToken d = Some tok /\
              authorization req = Some ("Bearer " ++ tok).

(** The request does not carry the caster token: the session is not
    initialized, or it is and the header is anything else (or missing). *)
Definition not_authorized (st : State) (req : Request) : Prop :=
  sessionData st = None \/
  exists d tok, sessionData st = Some d /\ casterToken d = Some tok /\
                authorization req <> Some ("Bearer " ++ tok).

(** An SFU session is linked: the record holds an SFU session id. *)
Definition sfu_linked (st : State) : Prop :=
  exists d c, sessionData st = Some d /\ callsSessionId d = Some c /\ c <> "".

(** The session is initialized: the record exists and holds a caster token. *)
Definition initialized (st : State) : Prop :=
  exists d tok, sessionData st = Some d /\ casterToken d = Some tok.

(** The published track names of a state, none before initialization. *)
Definition tracks (st : State) : list string :=
  match sessionData st with
  | Some d => track_list d
  | None => []
  end.

(** The snapshot pushed on attach and the events broadcast by the routes. *)
Definition session_data_event (d : SessionData) : JSON :=
  obj [("type", str "session-data");
       ("data", Some (obj [("sessionId", str (sessionId d));
                           ("callsSessionId", option_map JStr (callsSessionId d));
                           ("trackNames", Some (JArr (map JStr (track_list d))))]))].

Definition track_added_event (trackName : string) : JSON :=
  obj [("type", str "track-added"); ("trackName", str trackName)].

Definition track_removed_event (trackName : string) : JSON :=
  obj [("type", str "track-removed"); ("trackName", str trackName)].

(** What holds of the record in every reachable state: memory and storage
    agree, and a record always carries its token. *)
Definition consistent (st : State) : Prop :=
  storage st = sessionData st /\
  forall d, sessionData st = Some d -> casterToken d <> None.

(** The identity of a record never changes once it exists. *)
Definition same_identity (before after : option SessionData) : Prop :=
  forall d, before = Some d ->
  exists d', after = Some d' /\
             sessionId d' = sessionId d /\
             casterToken d' = casterToken d /\
             createdAt d' = createdAt d.

(** One event keeps memory and storage in agreement, keeps the token on the
    record, and never changes the identity of an existing record. *)
Definition evolves (st st' : State) : Prop :=
  consistent st ->
  consistent st' /\ same_identity (sessionData st) (sessionData st').

(** ** Concrete worlds, requests and runs *)

Definition sfu_up : UpstreamRequest -> UpstreamResponse :=
  fun _ => {| u_status := 200; u_text := "";
              u_json := JObj [("sessionId", JStr "sfu1")] |}.

Definition sfu_down : UpstreamRequest -> UpstreamResponse :=
  fun _ => {| u_status := 503; u_text := "quota exceeded"; u_json := JNull |}.

Definition world (sfu : UpstreamRequest -> UpstreamResponse) (sockets : Socket * Socket)
    : World :=
  {| idString := "7f3a9c21d4e8b6f0"; CALLS_APP_ID := "app"; CALLS_APP_SECRET := "secret";
     randomUUID := "tok"; now := 1700000000000%Z; pair := sockets;
     upstream := sfu;
     readyState := fun s => if Nat.eqb s 5 then CLOSED else OPEN |}.

Definition http_post (path : string) (auth : option string) (b : Body) : Request :=
  {| upgrade := None; method := "POST"; pathname := path; role := None;
     authorization := auth; body := b |}.

Definition http_get (path : string) : Request :=
  {| upgrade := None; method := "GET"; pathname := path; role := None;
     authorization := None; body := NoBody |}.

Definition attach (r : option string) : Request :=
  {| upgrade := Some "websocket"; method := "GET"; pathname := "/ws"; role := r;
     authorization := None; body := NoBody |}.

Definition add_v1 : Request :=
  http_post "/add-track" (Some "Bearer tok") (AddTrackBody "sfu1" "v1" None None None).

(** A session after [init], with one viewer attached. *)
Definition started : State :=
  run initial [Fetch (world sfu_up (0, 1)) (http_post "/init" None NoBody);
               Fetch (world sfu_up (2, 3)) (attach None)].

(** The record of [started]. *)
Definition started_record : SessionData :=
  {| sessionId := "7f3a9c21"; createdAt := 1700000000000%Z;
     casterToken := Some "tok"; callsSessionId := None; trackNames := None |}.

(** A session that was initialized and then published a track without ever
    creating its SFU session. *)
Definition tracks_without_link : State :=
  run initial [Fetch (world sfu_up (0, 1)) (http_post "/init" None NoBody);
               Fetch (world sfu_up (0, 1)) add_v1].

(** A session after [init] and a successful [calls-session]. *)
Definition linked : State :=
  run initial [Fetch (world sfu_up (0, 1)) (http_post "/init" None NoBody);
               Fetch (world sfu_up (0, 1))
                     (http_post "/calls-session" (Some "Bearer tok") NoBody)].

Definition linked_record : SessionData :=
  {| sessionId := "7f3a9c21"; createdAt := 1700000000000%Z;
     casterToken := Some "tok"; callsSessionId := Some "sfu1"; trackNames := None |}.

(** The two requests whose failure answer is a fixed text. *)
Definition create_sfu_session : Request :=
  http_post "/calls-session" (Some "Bearer tok") NoBody.

Definition pull_all : Request :=
  http_post "/pull-tracks" None (PullTracksBody "viewer1" None).

(** Four attached connections; socket 5 is closed in [world]. *)
Definition four_sockets : State :=
  {| sessions := [(1, "caster"); (3, "viewer"); (5, "viewer"); (7, "viewer")];
     sessionData := None; storage := None |}.

(** A remove-track request for a track that was never added. *)
Definition remove_ghost : Request :=
  http_post "/remove-track" (Some "Bearer tok") (RemoveTrackBody "ghost").

(** A toy [JSON.parse] that knows one frame. *)
Definition signal_frame : JSON := JObj [("type", JStr "signal"); ("sdp", JStr "offer")].

Definition parse_one (payload : string) : option JSON :=
  if String.eqb payload "signal-frame" then Some signal_frame else None.

(** ** Further vocabulary *)

(** The SFU session id of a state, none before initialization. *)
Definition link (st : State) : option string :=
  match sessionData st with
  | Some d => callsSessionId d
  | None => None
  end.

(** The record [init] creates. *)
Definition fresh_record (w : World) : SessionData :=
  {| sessionId := slice0 8 (idString w);
     createdAt := now w;
     casterToken := Some (randomUUID w);
     callsSessionId := None;
     trackNames := None |}.

(** The upstream request of [calls-session]. *)
Definition create_call (w : World) : UpstreamRequest :=
  calls w "POST" "/sessions/new" json_type None.

(** The event broadcast by [calls-session]. *)
Definition calls_session_ready_event (callsData : JSON) : JSON :=
  obj [("type", str "calls-session-ready"); ("sessionId", prop callsData "sessionId")].

(** The upstream request of [pull-tracks] on a session linked to [sfu]. *)
Definition pull_call (w : World) (viewerSessionId : string) (sfu : option string)
    (trackName : option string) : UpstreamRequest :=
  calls w "POST" ("/sessions/" ++ viewerSessionId ++ "/tracks/new") json_type
    (Some (obj [("tracks",
                 Some (JArr [obj [("location", str "remote");
                                  ("sessionId", option_map JStr sfu);
                                  ("trackName", str (or_else trackName "*"))]]))])).


(** The upstream calls among a list of effects. *)
Fixpoint fetches (fx : list Effect) : list UpstreamRequest :=
  match fx with
  | [] => []
  | EFetch rq :: rest => rq :: fetches rest
  | _ :: rest => fetches rest
  end.

(** The address of the Calls API for the sessions of this application. *)
Definition sessions_api (w : World) : string :=
  "https://rtc.live.cloudflare.com/v1/apps/" ++ CALLS_APP_ID w ++ "/sessions/".

(** A remove-track request for the track of [add_v1]. *)
Definition remove_v1 : Request :=
  http_post "/remove-track" (Some "Bearer tok") (RemoveTrackBody "v1").

(** The object's [fetch], as the Worker's stub calls it. *)
Definition CastSession_fetch : World -> State -> Request -> Result := fetch.

(** ** The Worker in front of the objects (the module that exports [CastSession]) *)
Module Worker.

(** [const chars] of [generateSessionId]. *)
Definition chars : string := "abcdefghijklmnopqrstuvwxyz0123456789".

(** [chars[i]] as [result += chars[i]] appends it: the character, or the
    text of [undefined] past the end. *)
Definition char_at (i : nat) : string :=
  match String.get i chars with
  | Some c => String c EmptyString
  | None => "undefined"
  end.

(** [generateSessionId()].  [draw k] is the value of
    [Math.floor(Math.random() * chars.length)] in iteration [k]. *)
Definition generateSessionId (draw : nat -> nat) : string :=
  fold_left (fun result k => result ++ char_at (draw k)) [0; 1; 2; 3; 4] EmptyString.

(** The character class [[a-z0-9]]. *)
Definition id_char (c : ascii) : bool :=
  let n := nat_of_ascii c in
  ((97 <=? n)%nat && (n <=? 122)%nat) || ((48 <=? n)%nat && (n <=? 57)%nat).

(** [[a-z0-9]{5}] against a whole string. *)
Definition is_id (s : string) : bool :=
  (String.length s =? 5)%nat && forallb id_char (list_ascii_of_string s).

(** [/^\/~[a-z0-9]{5}$/] and [/^\/\-[a-z0-9]{5}$/], by their second character. *)
Definition match_page (marker : ascii) (path : string) : bool :=
  match path with
  | String "/" (String m rest) => Ascii.eqb m marker && is_id rest
  | _ => false
  end.

(** [/^\/api\/[a-z0-9]{5}\//]: a prefix test. *)
Definition match_api (path : string) : bool :=
  prefix "/api/" path && is_id (substring 5 5 path) &&
  match String.get 10 path with
  | Some c => Ascii.eqb c "/"
  | None => false
  end.

(** [String.prototype.split] on one separator character. *)
Fixpoint split (sep : ascii) (s : string) : list string :=
  match s with
  | EmptyString => [EmptyString]
  | String c rest =>
      if Ascii.eqb c sep then EmptyString :: split sep rest
      else match split sep rest with
           | head :: tail => String c head :: tail
           | [] => [String c EmptyString]
           end
  end.

(** [Array.prototype.join("/")] and [String.prototype.slice(n)]. *)
Definition join (parts : list string) : string := String.concat "/" parts.

Definition slice_from (n : nat) (s : string) : string :=
  substring n (String.length s - n) s.

(** What the Worker answers: a redirect, a page, the answer of the object it
    forwarded to, 404, or a rejected promise. *)
Inductive Reply : Type :=
| Redirect (location : string) (code : nat)
| Html (page : string)
| FromObject (o : Outcome)
| NotFound
| Rejected.

(** [env.CAST_SESSION]: one object per name ([idFromName]). *)
Definition Namespace : Type := string -> State.

Definition update (objects : Namespace) (name : string) (st : State) : Namespace :=
  fun n => if String.eqb n name then st else objects n.

(** The request the cast page sends to its object:
    [new Request(`${url.origin}/init`, { method: "POST" })]. *)
Definition init_request : Request :=
  {| upgrade := None; method := "POST"; pathname := "/init"; role := None;
     authorization := None; body := NoBody |}.

(** [new Request(apiUrl, request)]: the same request on another path. *)
Definition forwarded (req : Request) (apiPath : string) : Request :=
  {| upgrade := upgrade req; method := method req; pathname := apiPath;
     role := role req; authorization := authorization req; body := body req |}.

Section Pages.

(** The two page templates, which are not modelled. *)
Variable getCastPageHTML : string -> string -> option string -> string.
Variable getViewPageHTML : string -> string -> string.

(** The default export's [fetch(request, env)]. *)
Definition fetch (draw : nat -> nat) (w : World) (objects : Namespace)
    (origin : string) (req : Request) : Reply * Namespace * list Effect :=
  let path := pathname req in
  if String.eqb path "/" then
    (Redirect (origin ++ "/~" ++ generateSessionId draw) 302, objects, [])
  else if match_page "~" path then
    let sessionId := slice_from 2 path in
    let initResponse := CastSession_fetch w (objects sessionId) init_request in
    match outcome initResponse with
    | Returned {| content := Json JNull |} =>
        (Rejected, update objects sessionId (after initResponse), effects initResponse)
    | Returned {| content := Json v |} =>
        (Html (getCastPageHTML sessionId origin (as_string (prop v "casterToken"))),
         update objects sessionId (after initResponse), effects initResponse)
    | _ => (Rejected, update objects sessionId (after initResponse), effects initResponse)
    end
  else if match_page "-" path then
    (Html (getViewPageHTML (slice_from 2 path) origin), objects, [])
  else if match_api path then
    let sessionId := nth 2 (split "/" path) EmptyString in
    let apiPath := "/" ++ join (skipn 3 (split "/" path)) in
    let r := CastSession_fetch w (objects sessionId) (forwarded req apiPath) in
    (FromObject (outcome r), update objects sessionId (after r), effects r)
  else (NotFound, objects, []).

End Pages.

End Worker.

(** ** Strings: [endsWith] and [includes] *)

Lemma length_app (s t : string) :
  String.length (s ++ t) = String.length s + String.length t.
Proof. induction s as [|c s IH]; simpl; [reflexivity | now rewrite IH]. Qed.

Lemma substring_skip (p a : string) (k m : nat) :
  substring (String.length p + k) m (p ++ a) = substring k m a.
Proof. induction p as [|c p IH]; simpl; auto. Qed.

Lemma substring_all (s : string) : substring 0 (String.length s) s = s.
Proof. induction s as [|c s IH]; simpl; [reflexivity | now rewrite IH]. Qed.

Lemma substring_split (s : string) :
  forall k, k <= String.length s ->
  s = substring 0 k s ++ substring k (String.length s - k) s.
Proof.
  induction s as [|c s IH]; intros [|k] Hk; simpl in *; try lia.
  - reflexivity.
  - now rewrite substring_all.
  - rewrite <- IH by lia. reflexivity.
Qed.

Lemma endsWith_inv (s a : string) :
  endsWith s a = true -> exists p, s = p ++ a.
Proof.
  unfold endsWith. intros H.
  apply andb_true_iff in H as [Hle Heq].
  apply Nat.leb_le in Hle. apply String.eqb_eq in Heq.
  exists (substring 0 (String.length s - String.length a) s).
  assert (Hs := substring_split s (String.length s - String.length a)
                 ltac:(lia)).
  replace (String.length s - (String.length s - String.length a))
    with (String.length a) in Hs by lia.
  now rewrite Heq in Hs.
Qed.

Lemma endsWith_app_short (p a b : string) :
  String.length b <= String.length a ->
  endsWith (p ++ a) b = endsWith a b.
Proof.
  intros Hle. unfold endsWith. rewrite length_app.
  replace (String.length p + String.length a - String.length b)
    with (String.length p + (String.length a - String.length b)) by lia.
  rewrite substring_skip.
  replace (String.length b <=? String.length p + String.length a)%nat with true
    by (symmetry; apply Nat.leb_le; lia).
  replace (String.length b <=? String.length a)%nat with true
    by (symmetry; apply Nat.leb_le; lia).
  reflexivity.
Qed.

(** A path cannot end with two suffixes neither of which ends with the other:
    the routes of [fetch] are pairwise exclusive. *)
Lemma endsWith_exclusive (s a b : string) :
  endsWith s a = true ->
  endsWith a b = false ->
  endsWith b a = false ->
  endsWith s b = false.
Proof.
  intros Ha Hab Hba.
  destruct (endsWith_inv _ _ Ha) as [p ->].
  destruct (Nat.le_gt_cases (String.length b) (String.length a)) as [Hle|Hgt].
  - now rewrite endsWith_app_short.
  - destruct (endsWith (p ++ a) b) eqn:Hb; [|reflexivity].
    destruct (endsWith_inv _ _ Hb) as [q Hq].
    rewrite Hq, endsWith_app_short in Ha by lia. congruence.
Qed.

Lemma prefix_refl (s : string) : prefix s s = true.
Proof.
  induction s as [|c s IH]; simpl; [reflexivity|].
  destruct (ascii_dec c c); [assumption | congruence].
Qed.

Lemma includes_app (a b : string) : includes (a ++ b) b = true.
Proof.
  induction a as [|c a IH]; simpl.
  - destruct b; simpl; [reflexivity|].
    rewrite prefix_refl.
    destruct (ascii_dec a a); [reflexivity | congruence].
  - rewrite IH. apply orb_true_r.
Qed.

(** ** Dispatch: which handler serves a request *)

Ltac dispatch :=
  intros (Hup & Hm & Hp); unfold fetch, route; rewrite Hup, Hm;
  repeat match goal with
    | |- context [endsWith (pathname ?r) ?suf] =>
        first [ rewrite Hp
              | rewrite (endsWith_exclusive (pathname r) _ suf Hp eq_refl eq_refl) ]
    end;
  reflexivity.

Lemma fetch_upgrade (w : World) (st : State) (req : Request) :
  is_attach req -> fetch w st req = handle_upgrade w st req.
Proof. unfold is_attach, fetch. now intros ->. Qed.

Lemma fetch_init (w : World) (st : State) (req : Request) :
  is_route req "POST" "/init" -> fetch w st req = handle_init w st.
Proof. dispatch. Qed.

Lemma fetch_calls_session (w : World) (st : State) (req : Request) :
  is_route req "POST" "/calls-session" -> fetch w st req = handle_calls_session w st req.
Proof. dispatch. Qed.

Lemma fetch_init_connection (w : World) (st : State) (req : Request) :
  is_route req "POST" "/init-connection" ->
  fetch w st req = handle_init_connection w st req.
Proof. dispatch. Qed.

Lemma fetch_renegotiate (w : World) (st : State) (req : Request) :
  is_route req "POST" "/renegotiate" -> fetch w st req = handle_renegotiate w st req.
Proof. dispatch. Qed.

Lemma fetch_add_track (w : World) (st : State) (req : Request) :
  is_route req "POST" "/add-track" -> fetch w st req = handle_add_track w st req.
Proof. dispatch. Qed.

Lemma fetch_new_session (w : World) (st : State) (req : Request) :
  is_route req "POST" "/new-session" -> fetch w st req = handle_new_session w st.
Proof. dispatch. Qed.

Lemma fetch_viewer_renegotiate (w : World) (st : State) (req : Request) :
  is_route req "POST" "/viewer-renegotiate" ->
  fetch w st req = handle_viewer_renegotiate w st req.
Proof. dispatch. Qed.

Lemma fetch_remove_track (w : World) (st : State) (req : Request) :
  is_route req "POST" "/remove-track" -> fetch w st req = handle_remove_track w st req.
Proof. dispatch. Qed.

Lemma fetch_info (w : World) (st : State) (req : Request) :
  is_route req "GET" "/info" -> fetch w st req = handle_info st.
Proof. dispatch. Qed.

(** ** The bearer guard *)

Lemma bearer_record (st : State) (req : Request) (d : SessionData) :
  bearer st req = Some d -> sessionData st = Some d.
Proof.
  unfold bearer. destruct (sessionData st) as [d0|]; [|discriminate].
  destruct (strict_eq _ _); congruence.
Qed.

Lemma bearer_header (st : State) (req : Request) (d : SessionData) :
  bearer st req = Some d ->
  authorization req = Some ("Bearer " ++ template (casterToken d)).
Proof.
  unfold bearer. destruct (sessionData st) as [d0|]; [|discriminate].
  unfold strict_eq. destruct (authorization req) as [a|]; [|discriminate].
  destruct (String.eqb_spec a ("Bearer " ++ template (casterToken d0)));
    intros [= <-]; congruence.
Qed.

Lemma bearer_valid (st : State) (req : Request) (d : SessionData) :
  valid_token st req d -> bearer st req = Some d.
Proof.
  intros (Hd & tok & Htok & Hauth). unfold bearer.
  rewrite Hd, Htok, Hauth. simpl. now rewrite String.eqb_refl.
Qed.

Lemma bearer_refused (st : State) (req : Request) :
  not_authorized st req -> bearer st req = None.
Proof.
  unfold bearer. intros [-> | (d & tok & -> & Htok & Hne)]; [reflexivity|].
  rewrite Htok. cbn [template]. unfold strict_eq.
  destruct (authorization req) as [a|] eqn:Ha; [|reflexivity].
  destruct (String.eqb_spec a ("Bearer " ++ tok)); congruence.
Qed.

(** ** Sends of a broadcast *)

Lemma sends_app (fx fy : list Effect) : sends (fx ++ fy) = (sends fx ++ sends fy)%list.
Proof.
  induction fx as [|e fx IH]; simpl; [reflexivity|].
  destruct e; simpl; now rewrite IH.
Qed.

Lemma writes_app (fx fy : list Effect) : writes (fx ++ fy) = (writes fx ++ writes fy)%list.
Proof.
  induction fx as [|e fx IH]; simpl; [reflexivity|].
  destruct e; simpl; now rewrite IH.
Qed.

Lemma sends_broadcast (w : World) (st : State) (message : JSON) :
  sends (broadcast w st message) = map (fun s => (s, message)) (open_sockets w st).
Proof.
  unfold broadcast, open_sockets.
  induction (sessions st) as [|[s r] m IH]; simpl; [reflexivity|].
  destruct (is_open (readyState w s)); simpl; now rewrite IH.
Qed.

Lemma writes_broadcast (w : World) (st : State) (message : JSON) :
  writes (broadcast w st message) = [].
Proof.
  unfold broadcast.
  induction (sessions st) as [|[s r] m IH]; simpl; [reflexivity|].
  destruct (is_open (readyState w s)); simpl; assumption.
Qed.

Lemma broadcast_sessions (w : World) (st st' : State) (message : JSON) :
  sessions st' = sessions st -> broadcast w st' message = broadcast w st message.
Proof. unfold broadcast. now intros ->. Qed.

(** ** Authorization *)

(** C1.  A request to a mutating caster endpoint (create SFU session,
    init-connection, renegotiate, add track, remove track) that does not carry
    [Bearer <casterToken>] of an initialized session, a request before
    initialization included, is answered 401 [Unauthorized]; the state after it
    is the state before it (record, stored record and connections), and the
    handler performs no effect at all: no storage write, no send to any
    connection, no upstream call. *)
Theorem unauthorized_is_rejected (w : World) (st : State) (req : Request) :
  mutating req ->
  not_authorized st req ->
  outcome (fetch w st req) = Returned (plain "Unauthorized" 401) /\
  after (fetch w st req) = st /\
  effects (fetch w st req) = [] /\
  writes (effects (fetch w st req)) = [] /\
  sends (effects (fetch w st req)) = [].
Proof.
  intros Hroute Hauth. apply bearer_refused in Hauth.
  assert (fetch w st req = respond (plain "Unauthorized" 401) st []) as ->.
  { destruct Hroute as [H | [H | [H | [H | H]]]].
    - rewrite (fetch_calls_session _ _ _ H). unfold handle_calls_session.
      now rewrite Hauth.
    - rewrite (fetch_init_connection _ _ _ H). unfold handle_init_connection.
      now rewrite Hauth.
    - rewrite (fetch_renegotiate _ _ _ H). unfold handle_renegotiate.
      now rewrite Hauth.
    - rewrite (fetch_add_track _ _ _ H). unfold handle_add_track.
      now rewrite Hauth.
    - rewrite (fetch_remove_track _ _ _ H). unfold handle_remove_track.
      now rewrite Hauth. }
  repeat split.
Qed.

Lemma unauthorized_is_rejected_witness :
  mutating (http_post "/api/add-track" (Some "Bearer guess") NoBody) /\
  not_authorized started (http_post "/api/add-track" (Some "Bearer guess") NoBody) /\
  after (fetch (world sfu_up (4, 5)) started
           (http_post "/api/add-track" (Some "Bearer guess") NoBody)) = started.
Proof.
  assert (Hroute : mutating (http_post "/api/add-track" (Some "Bearer guess") NoBody)).
  { right; right; right; left. repeat split. }
  assert (Hauth : not_authorized started
                    (http_post "/api/add-track" (Some "Bearer guess") NoBody)).
  { right. eexists _, "tok". repeat split; discriminate. }
  split; [exact Hroute | split; [exact Hauth |]].
  exact (proj1 (proj2
    (unauthorized_is_rejected (world sfu_up (4, 5)) started _ Hroute Hauth))).
Defined.

(** ** The record along a run *)

Lemma evolves_refl (st : State) : evolves st st.
Proof. intros H. split; [assumption|]. intros d Hd. now exists d. Qed.

Lemma evolves_trans (a b c : State) : evolves a b -> evolves b c -> evolves a c.
Proof.
  intros Hab Hbc Ha. destruct (Hab Ha) as [Hb Iab].
  destruct (Hbc Hb) as [Hc Ibc]. split; [assumption|].
  intros d Hd. destruct (Iab d Hd) as (d1 & E1 & ? & ? & ?).
  destruct (Ibc d1 E1) as (d2 & E2 & ? & ? & ?).
  exists d2. repeat split; congruence.
Qed.

Lemma evolves_sessions (st : State) (m : list (Socket * string)) :
  evolves st {| sessions := m; sessionData := sessionData st; storage := storage st |}.
Proof.
  intros [Hs Ht]. split; [split; assumption|]. intros d Hd. now exists d.
Qed.

Lemma evolves_update (st : State) (d d' : SessionData) :
  sessionData st = Some d ->
  sessionId d' = sessionId d ->
  casterToken d' = casterToken d ->
  createdAt d' = createdAt d ->
  evolves st (put (assign st d')).
Proof.
  intros Hd Hi Ht Hc [Hs Htok]. split.
  - split; [reflexivity|]. simpl. intros d0 [= <-]. rewrite Ht. now apply Htok.
  - intros d0 Hd0. exists d'. simpl. rewrite Hd in Hd0. injection Hd0 as <-.
    repeat split; assumption.
Qed.

Lemma evolves_fresh (st : State) (d : SessionData) :
  sessionData st = None ->
  casterToken d <> None ->
  evolves st (put (assign st d)).
Proof.
  intros Hd Ht _. split.
  - split; [reflexivity|]. simpl. now intros d0 [= <-].
  - intros d0 Hd0. congruence.
Qed.

Lemma evolves_restart (st : State) : evolves st (restart st).
Proof.
  intros [Hs Ht]. unfold restart. split.
  - split; simpl; [reflexivity|]. rewrite Hs. exact Ht.
  - simpl. rewrite Hs. intros d Hd. now exists d.
Qed.

Ltac evolve :=
  repeat match goal with
    | |- evolves ?st (after (respond _ ?st _)) => apply evolves_refl
    | |- evolves ?st (after (throw ?st _)) => apply evolves_refl
    | |- evolves ?st ?st => apply evolves_refl
    | |- evolves _ (after (if ?c then _ else _)) => destruct c
    | |- evolves _ (after (match ?x with _ => _ end)) => destruct x eqn:?
    | H : bearer _ _ = Some _ |- _ => apply bearer_record in H
    | |- evolves _ (after (respond _ (put (assign _ _)) _)) =>
        simpl after; eapply evolves_update; [eassumption | reflexivity ..]
    end.

Lemma fetch_evolves (w : World) (st : State) (req : Request) :
  evolves st (after (fetch w st req)).
Proof.
  unfold fetch.
  repeat match goal with
    | |- evolves _ (after (if ?c then _ else _)) => destruct c
    end.
  - apply evolves_sessions.
  - unfold handle_init. destruct (sessionData st) eqn:Hd; simpl after.
    + apply evolves_refl.
    + apply evolves_fresh; [assumption | discriminate].
  - unfold handle_calls_session. evolve.
  - unfold handle_init_connection. evolve.
  - unfold handle_renegotiate. evolve.
  - unfold handle_add_track. evolve.
  - unfold handle_new_session. evolve.
  - unfold handle_pull_tracks. evolve.
  - unfold handle_viewer_renegotiate. evolve.
  - unfold handle_remove_track. evolve.
    simpl. destruct (trackNames s) eqn:Ht; simpl.
    + eapply evolves_update; [eassumption | reflexivity ..].
    + apply evolves_refl.
  - unfold handle_info. evolve.
  - unfold handle_calls_state. evolve.
  - unfold handle_viewer_calls_state. evolve.
  - apply evolves_refl.
Qed.

Lemma step_evolves (st : State) (ev : Event) : evolves st (step st ev).
Proof.
  destruct ev; simpl.
  - apply fetch_evolves.
  - apply evolves_refl.
  - apply evolves_sessions.
  - apply evolves_sessions.
  - apply evolves_restart.
Qed.

Lemma run_evolves (evs : list Event) : forall st, evolves st (run st evs).
Proof.
  induction evs as [|ev evs IH]; intros st; simpl.
  - apply evolves_refl.
  - eapply evolves_trans; [apply step_evolves | apply IH].
Qed.

Lemma reachable_consistent (st : State) : reachable st -> consistent st.
Proof.
  intros [evs <-]. apply (run_evolves evs initial).
  split; [reflexivity | discriminate].
Qed.

Lemma reachable_step (st : State) (ev : Event) :
  reachable st -> reachable (step st ev).
Proof.
  intros [evs <-]. exists (evs ++ [ev])%list.
  unfold run. now rewrite fold_left_app.
Qed.

(** ** Initialization *)

Lemma init_reply (w : World) (st : State) :
  consistent st ->
  exists d tok,
    sessionData (after (handle_init w st)) = Some d /\
    casterToken d = Some tok /\
    outcome (handle_init w st) =
      Returned (json_response (obj [("sessionId", str (sessionId d));
                                    ("casterToken", str tok)])) /\
    (forall d0, sessionData st = Some d0 ->
       handle_init w st = respond
         (json_response (obj [("sessionId", str (sessionId d0));
                              ("casterToken", option_map JStr (casterToken d0))]))
         st []).
Proof.
  intros [_ Htok]. unfold handle_init.
  destruct (sessionData st) as [d|] eqn:Hd.
  - specialize (Htok d eq_refl).
    destruct (casterToken d) as [tok|] eqn:Ht; [|congruence].
    exists d, tok. simpl. rewrite Hd, Ht. repeat split.
    now intros d0 [= <-]; rewrite Ht.
  - eexists _, (randomUUID w). simpl. repeat split. discriminate.
Qed.

(** C2.  [init] is idempotent and never fails.  From any reachable state the
    first [init] answers 200 with a [sessionId] and a [casterToken]; after any
    further events whatsoever, a later [init] answers with the same
    [sessionId] and the same [casterToken], changes neither the record nor the
    stored record, and performs no effect. *)
Theorem init_is_idempotent (st : State) (w1 w2 : World) (req1 req2 : Request)
    (evs : list Event) :
  reachable st ->
  is_route req1 "POST" "/init" ->
  is_route req2 "POST" "/init" ->
  exists sid tok,
    outcome (fetch w1 st req1) =
      Returned (json_response (obj [("sessionId", str sid); ("casterToken", str tok)])) /\
    outcome (fetch w2 (run (after (fetch w1 st req1)) evs) req2) =
      Returned (json_response (obj [("sessionId", str sid); ("casterToken", str tok)])) /\
    after (fetch w2 (run (after (fetch w1 st req1)) evs) req2) =
      run (after (fetch w1 st req1)) evs /\
    effects (fetch w2 (run (after (fetch w1 st req1)) evs) req2) = [].
Proof.
  intros Hr H1 H2.
  assert (Hc1 := reachable_consistent _ (reachable_step st (Fetch w1 req1) Hr)).
  simpl in Hc1.
  rewrite (fetch_init _ _ _ H2), (fetch_init _ _ _ H1) in *.
  destruct (init_reply w1 st (reachable_consistent _ Hr)) as (d1 & tok & Hd1 & Ht1 & Ho1 & _).
  destruct (run_evolves evs _ Hc1) as [Hc2 Hid].
  destruct (Hid d1 Hd1) as (d2 & Hd2 & Hsid & Htok & _).
  destruct (init_reply w2 _ Hc2) as (_ & _ & _ & _ & _ & Hagain).
  rewrite (Hagain d2 Hd2), Hsid, Htok, Ht1.
  exists (sessionId d1), tok. repeat split. exact Ho1.
Qed.

Lemma init_is_idempotent_witness :
  reachable started /\
  is_route (http_post "/api/init" None NoBody) "POST" "/init" /\
  outcome (fetch (world sfu_up (6, 7))
             (run (after (fetch (world sfu_up (4, 5)) started
                            (http_post "/api/init" None NoBody)))
                  [Restart; Fetch (world sfu_up (8, 9)) add_v1])
             (http_post "/api/init" None NoBody)) =
    Returned (json_response (obj [("sessionId", str "7f3a9c21");
                                  ("casterToken", str "tok")])).
Proof.
  assert (Hr : reachable started) by (eexists; reflexivity).
  assert (Hroute : is_route (http_post "/api/init" None NoBody) "POST" "/init")
    by (repeat split).
  split; [exact Hr | split; [exact Hroute |]].
  destruct (init_is_idempotent started (world sfu_up (4, 5)) (world sfu_up (6, 7))
              _ _ [Restart; Fetch (world sfu_up (8, 9)) add_v1] Hr Hroute Hroute)
    as (sid & tok & H1 & H2 & _).
  rewrite H2, <- H1. reflexivity.
Defined.

(** ** Adding and removing tracks *)

Lemma array_includes_In (xs : list string) (x : string) :
  array_includes xs x = true <-> In x xs.
Proof.
  unfold array_includes. rewrite existsb_exists. split.
  - intros (y & Hy & Heq). apply String.eqb_eq in Heq. now subst.
  - intros H. exists x. split; [assumption | apply String.eqb_refl].
Qed.

Lemma filter_absent (xs : list string) (x : string) :
  ~ In x xs -> filter (fun tn => negb (String.eqb tn x)) xs = xs.
Proof.
  induction xs as [|y xs IH]; simpl; intros H; [reflexivity|].
  destruct (String.eqb_spec y x) as [->|Hne]; simpl.
  - exfalso. apply H. now left.
  - f_equal. apply IH. intros Hin. apply H. now right.
Qed.

(** The two ways an authorized add-track ends, by the upstream status. *)
Lemma add_track_failed (w : World) (st : State) (req : Request) (d : SessionData)
    (cs name : string) (mid kind : option string) (sd : option JSON) :
  is_route req "POST" "/add-track" ->
  body req = AddTrackBody cs name mid kind sd ->
  valid_token st req d ->
  ok (upstream w (add_track_call w cs name mid kind sd)) = false ->
  fetch w st req =
    respond (plain ("Failed to add track: " ++
                    u_text (upstream w (add_track_call w cs name mid kind sd))) 500)
            st [EFetch (add_track_call w cs name mid kind sd)].
Proof.
  intros Hroute Hbody Hauth Hok.
  rewrite (fetch_add_track _ _ _ Hroute). unfold handle_add_track.
  now rewrite (bearer_valid _ _ _ Hauth), Hbody, Hok.
Qed.

Lemma add_track_succeeded (w : World) (st : State) (req : Request) (d : SessionData)
    (cs name : string) (mid kind : option string) (sd : option JSON) :
  is_route req "POST" "/add-track" ->
  body req = AddTrackBody cs name mid kind sd ->
  valid_token st req d ->
  ok (upstream w (add_track_call w cs name mid kind sd)) = true ->
  fetch w st req =
    let d' := set_trackNames d
                (if array_includes (track_list d) name
                 then track_list d
                 else push (track_list d) name) in
    respond (json_response (u_json (upstream w (add_track_call w cs name mid kind sd))))
            (put (assign st d'))
            (EFetch (add_track_call w cs name mid kind sd) :: EPut d' ::
             broadcast w st (track_added_event name)).
Proof.
  intros Hroute Hbody Hauth Hok.
  rewrite (fetch_add_track _ _ _ Hroute). unfold handle_add_track.
  rewrite (bearer_valid _ _ _ Hauth), Hbody, Hok. simpl.
  destruct (array_includes (track_list d) name); reflexivity.
Qed.

Lemma add_present_keeps_tracks (w : World) (st : State) (req : Request)
    (cs name : string) (mid kind : option string) (sd : option JSON) :
  is_route req "POST" "/add-track" ->
  body req = AddTrackBody cs name mid kind sd ->
  In name (tracks st) ->
  tracks (after (fetch w st req)) = tracks st.
Proof.
  intros Hroute Hbody Hin.
  rewrite (fetch_add_track _ _ _ Hroute). unfold handle_add_track.
  destruct (bearer st req) as [d|] eqn:Hb; [|reflexivity].
  apply bearer_record in Hb. rewrite Hbody.
  destruct (ok _); [|reflexivity]. simpl.
  unfold tracks in *. simpl. rewrite Hb in *.
  apply array_includes_In in Hin. now rewrite Hin.
Qed.

Lemma remove_absent_keeps_tracks (w : World) (st : State) (req : Request)
    (name : string) :
  is_route req "POST" "/remove-track" ->
  body req = RemoveTrackBody name ->
  ~ In name (tracks st) ->
  tracks (after (fetch w st req)) = tracks st /\
  (forall d, sessionData st = Some d ->
     exists d', sessionData (after (fetch w st req)) = Some d' /\
                trackNames d' = trackNames d).
Proof.
  intros Hroute Hbody Hin.
  rewrite (fetch_remove_track _ _ _ Hroute). unfold handle_remove_track.
  destruct (bearer st req) as [d|] eqn:Hb.
  - apply bearer_record in Hb. rewrite Hbody.
    unfold tracks, track_list in *. rewrite Hb in *.
    destruct (trackNames d) as [names|] eqn:Hn; simpl.
    + rewrite (filter_absent _ _ Hin). split; [reflexivity|].
      intros d0 [= <-]. eexists. split; [reflexivity|]. simpl. now rewrite Hn.
    + rewrite Hb, Hn. split; [reflexivity|].
      intros d0 [= <-]. now exists d.
  - simpl. split; [reflexivity|]. intros d Hd. now exists d.
Qed.

Lemma add_twice (w1 w2 : World) (st : State) (req : Request) (d : SessionData)
    (cs name : string) (mid kind : option string) (sd : option JSON) :
  is_route req "POST" "/add-track" ->
  body req = AddTrackBody cs name mid kind sd ->
  valid_token st req d ->
  ok (upstream w1 (add_track_call w1 cs name mid kind sd)) = true ->
  ok (upstream w2 (add_track_call w2 cs name mid kind sd)) = true ->
  tracks st = [] ->
  tracks (after (fetch w1 st req)) = [name] /\
  tracks (after (fetch w2 (after (fetch w1 st req)) req)) = [name].
Proof.
  intros Hroute Hbody Hauth Hok1 Hok2 Hnone.
  rewrite (add_track_succeeded w1 st req d cs name mid kind sd) by assumption.
  destruct Hauth as (Hd & tok & Htok & Hhdr).
  unfold tracks in Hnone. rewrite Hd in Hnone. rewrite Hnone. simpl.
  split; [reflexivity|].
  match goal with
  | |- tracks (after (fetch _ ?s1 _)) = _ => transitivity (tracks s1)
  end; [|reflexivity].
  apply (add_present_keeps_tracks w2 _ req cs name mid kind sd);
    [assumption | assumption | now left].
Qed.

(** C3.  The track set is idempotent under add and remove.  An add-track
    request for a name already in [trackNames] leaves [trackNames] as it is,
    whatever the token and the upstream answer; two successful add-track
    requests for the same name on a session without tracks leave exactly that
    one name, after the first and after the second; a remove-track request
    for a name that is not in [trackNames] leaves [trackNames] as it is (an
    unset [trackNames] stays unset). *)
Theorem track_set_is_idempotent (w : World) (st : State) (req : Request)
    (name : string) :
  (forall cs mid kind sd,
     is_route req "POST" "/add-track" ->
     body req = AddTrackBody cs name mid kind sd ->
     In name (tracks st) ->
     tracks (after (fetch w st req)) = tracks st) /\
  (forall w2 d cs mid kind sd,
     is_route req "POST" "/add-track" ->
     body req = AddTrackBody cs name mid kind sd ->
     valid_token st req d ->
     ok (upstream w (add_track_call w cs name mid kind sd)) = true ->
     ok (upstream w2 (add_track_call w2 cs name mid kind sd)) = true ->
     tracks st = [] ->
     tracks (after (fetch w st req)) = [name] /\
     tracks (after (fetch w2 (after (fetch w st req)) req)) = [name]) /\
  (is_route req "POST" "/remove-track" ->
   body req = RemoveTrackBody name ->
   ~ In name (tracks st) ->
   tracks (after (fetch w st req)) = tracks st /\
   forall d, sessionData st = Some d ->
     exists d', sessionData (after (fetch w st req)) = Some d' /\
                trackNames d' = trackNames d).
Proof.
  split; [|split].
  - intros. eapply add_present_keeps_tracks; eassumption.
  - intros. eapply add_twice; eassumption.
  - intros. eapply remove_absent_keeps_tracks; eassumption.
Qed.

Lemma track_set_is_idempotent_witness :
  valid_token started add_v1 started_record /\
  tracks started = [] /\
  tracks (after (fetch (world sfu_up (4, 5)) started add_v1)) = ["v1"] /\
  tracks (after (fetch (world sfu_up (6, 7))
                   (after (fetch (world sfu_up (4, 5)) started add_v1)) add_v1)) = ["v1"].
Proof.
  assert (Hauth : valid_token started add_v1 started_record).
  { split; [reflexivity|]. exists "tok". split; reflexivity. }
  split; [exact Hauth | split; [reflexivity|]].
  apply (proj1 (proj2 (track_set_is_idempotent (world sfu_up (4, 5)) started add_v1 "v1"))
           (world sfu_up (6, 7)) started_record "sfu1" None None None);
    try reflexivity; [repeat split | exact Hauth].
Defined.

(** ** Upstream failure on add-track *)

(** C4.  An add-track request with the valid caster token whose upstream call
    is answered with a non-success status returns 500, leaves the state as it
    was ([trackNames] included), writes nothing to storage and sends nothing
    to any connection.  The track set is updated only after upstream success:
    if [trackNames] differs after the request then the upstream answer was a
    success, and in that case the storage write and the broadcast follow the
    upstream call. *)
Theorem add_track_upstream_failure (w : World) (st : State) (req : Request)
    (d : SessionData) (cs name : string) (mid kind : option string)
    (sd : option JSON) :
  is_route req "POST" "/add-track" ->
  body req = AddTrackBody cs name mid kind sd ->
  valid_token st req d ->
  (ok (upstream w (add_track_call w cs name mid kind sd)) = false ->
   (exists text, outcome (fetch w st req) = Returned (plain text 500)) /\
   after (fetch w st req) = st /\
   writes (effects (fetch w st req)) = [] /\
   sends (effects (fetch w st req)) = []) /\
  (tracks (after (fetch w st req)) <> tracks st ->
   ok (upstream w (add_track_call w cs name mid kind sd)) = true) /\
  (ok (upstream w (add_track_call w cs name mid kind sd)) = true ->
   exists d', effects (fetch w st req) =
                EFetch (add_track_call w cs name mid kind sd) :: EPut d' ::
                broadcast w st (track_added_event name)).
Proof.
  intros Hroute Hbody Hauth. split; [|split].
  - intros Hok. rewrite (add_track_failed w st req d cs name mid kind sd) by assumption.
    simpl. repeat split. now eexists.
  - intros Hdiff.
    destruct (ok (upstream w (add_track_call w cs name mid kind sd))) eqn:Hok;
      [reflexivity|].
    rewrite (add_track_failed w st req d cs name mid kind sd) in Hdiff by assumption.
    now contradiction Hdiff.
  - intros Hok. rewrite (add_track_succeeded w st req d cs name mid kind sd) by assumption.
    now eexists.
Qed.

Lemma add_track_upstream_failure_witness :
  ok (sfu_down (add_track_call (world sfu_down (4, 5)) "sfu1" "v1" None None None)) = false /\
  outcome (fetch (world sfu_down (4, 5)) started add_v1) =
    Returned (plain "Failed to add track: quota exceeded" 500) /\
  after (fetch (world sfu_down (4, 5)) started add_v1) = started.
Proof.
  assert (Hauth : valid_token started add_v1 started_record).
  { split; [reflexivity|]. exists "tok". split; reflexivity. }
  destruct (add_track_upstream_failure (world sfu_down (4, 5)) started add_v1
              started_record
              "sfu1" "v1" None None None
              (conj eq_refl (conj eq_refl eq_refl)) eq_refl Hauth)
    as [Hfail _].
  destruct (Hfail eq_refl) as (_ & Hsame & _).
  split; [reflexivity | split; [reflexivity | exact Hsame]].
Defined.

(** ** What an upstream failure returns *)

(** The routes that read the upstream error text put it in the body of
    their 500: here the viewer's [new-session], which makes the same upstream
    call as [calls-session], and [add-track], which makes the same upstream
    call as [pull-tracks]. *)
Lemma new_session_failure_includes_text (w : World) (st : State) (req : Request) :
  is_route req "POST" "/new-session" ->
  ok (upstream w (calls w "POST" "/sessions/new" None None)) = false ->
  exists text,
    outcome (fetch w st req) = Returned (plain text 500) /\
    includes text (u_text (upstream w (calls w "POST" "/sessions/new" None None))) = true.
Proof.
  intros Hroute Hok. rewrite (fetch_new_session _ _ _ Hroute).
  unfold handle_new_session. rewrite Hok.
  exists ("Failed to create new session: " ++
          u_text (upstream w (calls w "POST" "/sessions/new" None None))).
  split; [reflexivity | apply includes_app].
Qed.

Lemma add_track_failure_includes_text (w : World) (st : State) (req : Request)
    (d : SessionData) (cs name : string) (mid kind : option string)
    (sd : option JSON) :
  is_route req "POST" "/add-track" ->
  body req = AddTrackBody cs name mid kind sd ->
  valid_token st req d ->
  ok (upstream w (add_track_call w cs name mid kind sd)) = false ->
  exists text,
    outcome (fetch w st req) = Returned (plain text 500) /\
    includes text (u_text (upstream w (add_track_call w cs name mid kind sd))) = true.
Proof.
  intros Hroute Hbody Hauth Hok.
  rewrite (add_track_failed w st req d cs name mid kind sd) by assumption.
  eexists. split; [reflexivity | apply includes_app].
Qed.

(** C5.  The code at the failing inputs.  With the valid caster token and an
    SFU that answers 503 [quota exceeded], [calls-session] returns 500 with
    the fixed body [Failed to create Calls session]; on a linked session
    [pull-tracks] returns 500 with the fixed body [Failed to pull tracks].
    Neither body includes the upstream error text. *)
Theorem fixed_failure_bodies :
  ok (sfu_down (calls (world sfu_down (4, 5)) "POST" "/sessions/new" json_type None)) = false /\
  outcome (fetch (world sfu_down (4, 5)) started create_sfu_session) =
    Returned (plain "Failed to create Calls session" 500) /\
  includes "Failed to create Calls session" "quota exceeded" = false /\
  outcome (fetch (world sfu_down (4, 5)) linked pull_all) =
    Returned (plain "Failed to pull tracks" 500) /\
  includes "Failed to pull tracks" "quota exceeded" = false.
Proof. repeat split. Qed.

(** ** Session info *)

(** C6.  [info] never fails and needs no token: whatever the request's
    headers, it answers 200 with a JSON body, leaves the state as it was and
    performs no effect.  When no SFU session is linked (no record, or a record
    with [callsSessionId] unset or empty) the body is [{ready:false}]; when an
    SFU session is linked the body is [ready:true] with the record's
    [callsSessionId] and [trackNames], [[]] when none was ever added. *)
Theorem info_reports_link (w : World) (st : State) (req : Request) :
  is_route req "GET" "/info" ->
  (exists v, fetch w st req = respond (json_response v) st []) /\
  (sessionData st = None \/
   (exists d, sessionData st = Some d /\
              (callsSessionId d = None \/ callsSessionId d = Some "")) ->
   outcome (fetch w st req) =
     Returned (json_response (obj [("ready", Some (JBool false))]))) /\
  (forall d c,
     sessionData st = Some d -> callsSessionId d = Some c -> c <> "" ->
     outcome (fetch w st req) =
       Returned (json_response
                   (obj [("ready", Some (JBool true));
                         ("callsSessionId", str c);
                         ("trackNames", Some (JArr (map JStr (track_list d))))]))) /\
  (forall d, sessionData st = Some d -> trackNames d = None -> track_list d = []).
Proof.
  intros Hroute. rewrite (fetch_info _ _ _ Hroute). unfold handle_info.
  repeat split.
  - destruct (sessionData st) as [d|]; [|now eexists].
    destruct (negb (truthy (callsSessionId d))); now eexists.
  - intros [-> | (d & -> & [-> | ->])]; reflexivity.
  - intros d c -> Hc Hne. rewrite Hc. simpl.
    destruct (String.eqb_spec c ""); [contradiction | reflexivity].
  - intros d _ Hn. unfold track_list. now rewrite Hn.
Qed.

Lemma info_reports_link_witness :
  is_route (http_get "/api/info") "GET" "/info" /\
  outcome (fetch (world sfu_down (4, 5)) started (http_get "/api/info")) =
    Returned (json_response (obj [("ready", Some (JBool false))])) /\
  outcome (fetch (world sfu_down (4, 5)) linked (http_get "/api/info")) =
    Returned (json_response (obj [("ready", Some (JBool true));
                                  ("callsSessionId", str "sfu1");
                                  ("trackNames", Some (JArr []))])).
Proof.
  assert (Hroute : is_route (http_get "/api/info") "GET" "/info") by (repeat split).
  split; [exact Hroute | split].
  - apply (proj1 (proj2 (info_reports_link (world sfu_down (4, 5)) started _ Hroute))).
    right. exists started_record. split; [reflexivity | now left].
  - destruct (info_reports_link (world sfu_down (4, 5)) linked _ Hroute)
      as (_ & _ & Hlinked & _).
    exact (Hlinked linked_record "sfu1" eq_refl eq_refl ltac:(discriminate)).
Defined.

(** ** Relaying signals *)

Lemma is_open_OPEN (r : ReadyState) : is_open r = true <-> r = OPEN.
Proof. destruct r; simpl; split; congruence. Qed.

Lemma relay_sends (w : World) (st : State) (ws : Socket) (data : JSON) :
  relay w st ws data =
    map (fun s => ESend s data)
        (filter (fun s => negb (Nat.eqb s ws) && is_open (readyState w s))
                (map fst (sessions st))).
Proof.
  unfold relay. induction (sessions st) as [|[s r] m IH]; simpl; [reflexivity|].
  destruct (negb (Nat.eqb s ws) && is_open (readyState w s)); simpl; now rewrite IH.
Qed.

Lemma sends_of_map (data : JSON) (l : list Socket) :
  sends (map (fun s => ESend s data) l) = map (fun s => (s, data)) l.
Proof. induction l as [|s l IH]; simpl; [reflexivity | now rewrite IH]. Qed.

Lemma signal_relayed (parse : string -> option JSON) (w : World) (st : State)
    (ws : Socket) (payload : string) (data : JSON) (r : string) :
  map_get ws (sessions st) = Some r ->
  parse payload = Some data ->
  prop data "type" = Some (JStr "signal") ->
  webSocketMessage parse w st ws (Str payload) = relay w st ws data.
Proof.
  intros Hws Hparse Htype. unfold webSocketMessage.
  rewrite Hparse, Hws, Htype.
  destruct data; try reflexivity. discriminate.
Qed.

(** C7.  When an attached connection sends a text frame that parses to a
    value whose [type] is ["signal"], the coordinator sends that value,
    serialised again, to every other attached connection that is open, once
    per entry of the connection map and in map order, and to nobody else: not
    to the sender, not to a connection that is not open, not to a connection
    that is no longer attached.  Nothing else happens: the state is unchanged
    and every effect is one of these sends. *)
Theorem signal_reaches_the_others (parse : string -> option JSON) (w : World)
    (st : State) (ws : Socket) (payload : string) (data : JSON) (r : string) :
  map_get ws (sessions st) = Some r ->
  parse payload = Some data ->
  prop data "type" = Some (JStr "signal") ->
  webSocketMessage parse w st ws (Str payload) =
    map (fun s => ESend s data)
        (filter (fun s => negb (Nat.eqb s ws) && is_open (readyState w s))
                (map fst (sessions st))) /\
  (forall s v,
     In (s, v) (sends (webSocketMessage parse w st ws (Str payload))) <->
     v = data /\ s <> ws /\ readyState w s = OPEN /\
     exists r', In (s, r') (sessions st)) /\
  (forall v, ~ In (ws, v) (sends (webSocketMessage parse w st ws (Str payload)))) /\
  step st (OnMessage w ws (Str payload)) = st.
Proof.
  intros Hws Hparse Htype.
  rewrite (signal_relayed parse w st ws payload data r Hws Hparse Htype), relay_sends.
  assert (Hin : forall s v,
    In (s, v) (sends (map (fun s0 => ESend s0 data)
                 (filter (fun s0 => negb (Nat.eqb s0 ws) && is_open (readyState w s0))
                         (map fst (sessions st))))) <->
    v = data /\ s <> ws /\ readyState w s = OPEN /\
    exists r', In (s, r') (sessions st)).
  { intros s v. rewrite sends_of_map, in_map_iff. split.
    - intros (s0 & [= <- <-] & Hf). apply filter_In in Hf as [Hm Hc].
      apply andb_true_iff in Hc as [Hne Hopen].
      apply negb_true_iff, Nat.eqb_neq in Hne. apply is_open_OPEN in Hopen.
      apply in_map_iff in Hm as ([s1 r1] & Hs1 & Hm). simpl in Hs1. subst s1.
      repeat split; try assumption. now exists r1.
    - intros (-> & Hne & Hopen & r' & Hm). exists s. split; [reflexivity|].
      apply filter_In. split.
      + apply in_map_iff. now exists (s, r').
      + apply andb_true_iff. split.
        * now apply negb_true_iff, Nat.eqb_neq.
        * now apply is_open_OPEN. }
  split; [reflexivity | split; [exact Hin | split; [|reflexivity]]].
  intros v Hv. apply Hin in Hv as (_ & Hne & _). now apply Hne.
Qed.

Lemma signal_reaches_the_others_witness :
  map_get 3 (sessions four_sockets) = Some "viewer" /\
  parse_one "signal-frame" = Some signal_frame /\
  prop signal_frame "type" = Some (JStr "signal") /\
  webSocketMessage parse_one (world sfu_up (0, 1)) four_sockets 3 (Str "signal-frame") =
  [ESend 1 signal_frame; ESend 7 signal_frame].
Proof.
  split; [reflexivity | split; [reflexivity | split; [reflexivity|]]].
  exact (proj1 (signal_reaches_the_others parse_one (world sfu_up (0, 1)) four_sockets
                  3 "signal-frame" signal_frame "viewer" eq_refl eq_refl eq_refl)).
Defined.

(** ** Tracks and the SFU link *)

Lemma route_true (req : Request) (m suffix : string) :
  route req m suffix = true ->
  method req = m /\ endsWith (pathname req) suffix = true.
Proof.
  unfold route. intros H. apply andb_true_iff in H as [Hm Hp].
  now apply String.eqb_eq in Hm.
Qed.

Ltac stays :=
  let H := fresh in
  intros H; exfalso; apply H; clear H;
  repeat first
    [ reflexivity
    | match goal with
      | |- context [match ?x with _ => _ end] => destruct x eqn:?
      | E : bearer _ _ = Some _ |- _ =>
          apply bearer_record in E; unfold tracks; simpl; rewrite E; reflexivity
      end ].

(** Only an add-track or remove-track request that passed the bearer guard
    changes the track names. *)
Lemma fetch_changes_tracks (w : World) (st : State) (req : Request) :
  tracks (after (fetch w st req)) <> tracks st ->
  exists d, bearer st req = Some d /\
            (is_route req "POST" "/add-track" \/ is_route req "POST" "/remove-track").
Proof.
  unfold fetch.
  destruct (strict_eq (upgrade req) "websocket") eqn:Hup; [stays|].
  destruct (route req "POST" "/init") eqn:R1.
  { unfold handle_init, tracks. destruct (sessionData st) eqn:Hd; simpl.
    - rewrite Hd. now intros H.
    - now intros H. }
  destruct (route req "POST" "/calls-session"); [unfold handle_calls_session; stays|].
  destruct (route req "POST" "/init-connection"); [unfold handle_init_connection; stays|].
  destruct (route req "POST" "/renegotiate"); [unfold handle_renegotiate; stays|].
  destruct (route req "POST" "/add-track") eqn:Radd.
  { intros Hdiff. destruct (bearer st req) as [d|] eqn:Hb.
    - exists d. split; [reflexivity|]. left.
      apply route_true in Radd as [Hm Hp]. now repeat split.
    - exfalso. apply Hdiff. unfold handle_add_track. now rewrite Hb. }
  destruct (route req "POST" "/new-session"); [unfold handle_new_session; stays|].
  destruct (route req "POST" "/pull-tracks"); [unfold handle_pull_tracks; stays|].
  destruct (route req "POST" "/viewer-renegotiate");
    [unfold handle_viewer_renegotiate; stays|].
  destruct (route req "POST" "/remove-track") eqn:Rrem.
  { intros Hdiff. destruct (bearer st req) as [d|] eqn:Hb.
    - exists d. split; [reflexivity|]. right.
      apply route_true in Rrem as [Hm Hp]. now repeat split.
    - exfalso. apply Hdiff. unfold handle_remove_track. now rewrite Hb. }
  destruct (route req "GET" "/info"); [unfold handle_info; stays|].
  destruct (route req "GET" "/calls-state"); [unfold handle_calls_state; stays|].
  destruct (route req "POST" "/viewer-calls-state");
    [unfold handle_viewer_calls_state; stays|].
  stays.
Qed.

Lemma bearer_is_valid (st : State) (req : Request) (d : SessionData) :
  consistent st -> bearer st req = Some d -> valid_token st req d.
Proof.
  intros [_ Htok] Hb. pose proof (bearer_record _ _ _ Hb) as Hd.
  pose proof (bearer_header _ _ _ Hb) as Hh.
  specialize (Htok d Hd). destruct (casterToken d) as [tok|] eqn:Ht; [|congruence].
  split; [assumption|]. now exists tok.
Qed.

(** C8, as the code has it.  In every reachable state a non-empty
    [trackNames] implies that the session is initialized (the record exists
    and holds a caster token), and an event changes [trackNames] only if it is
    an add-track or remove-track request carrying the valid caster token.
    Neither handler looks at [callsSessionId]. *)
Theorem tracks_need_the_token (st : State) (ev : Event) :
  reachable st ->
  (tracks st <> [] -> initialized st) /\
  (tracks (step st ev) <> tracks st ->
   exists w req d,
     ev = Fetch w req /\
     valid_token st req d /\
     (is_route req "POST" "/add-track" \/ is_route req "POST" "/remove-track")).
Proof.
  intros Hr. pose proof (reachable_consistent _ Hr) as Hc. split.
  - intros Hne. unfold tracks in Hne. destruct Hc as [_ Htok].
    destruct (sessionData st) as [d|] eqn:Hd; [|congruence].
    specialize (Htok d eq_refl).
    destruct (casterToken d) as [tok|] eqn:Ht; [|congruence].
    now exists d, tok.
  - destruct ev as [w req| | | |]; simpl; intros Hdiff.
    + destruct (fetch_changes_tracks w st req Hdiff) as (d & Hb & Hroute).
      exists w, req, d. split; [reflexivity|]. split; [|assumption].
      now apply bearer_is_valid.
    + now contradiction Hdiff.
    + now contradiction Hdiff.
    + now contradiction Hdiff.
    + exfalso. apply Hdiff. unfold tracks, restart. simpl.
      destruct Hc as [-> _]. reflexivity.
Qed.

Lemma tracks_need_the_token_witness :
  reachable started /\
  tracks (step started (Fetch (world sfu_up (4, 5)) add_v1)) <> tracks started /\
  valid_token started add_v1 started_record.
Proof.
  assert (Hr : reachable started) by (eexists; reflexivity).
  assert (Hdiff : tracks (step started (Fetch (world sfu_up (4, 5)) add_v1))
                  <> tracks started) by discriminate.
  split; [exact Hr | split; [exact Hdiff|]].
  destruct (proj2 (tracks_need_the_token started (Fetch (world sfu_up (4, 5)) add_v1) Hr)
              Hdiff) as (w & req & d & Hev & Hvalid & _).
  injection Hev as <- <-.
  destruct Hvalid as (Hd & Htok). injection Hd as <-.
  split; [reflexivity | exact Htok].
Defined.

(** C8 as stated fails: after [init] and one add-track answered with success
    by the SFU, the session has the track [v1] and no SFU session id. *)
Lemma tracks_without_sfu_link :
  reachable tracks_without_link /\
  tracks tracks_without_link = ["v1"] /\
  ~ sfu_linked tracks_without_link.
Proof.
  split; [eexists; reflexivity | split; [reflexivity|]].
  intros (d & c & Hd & Hc & _).
  injection Hd as <-. discriminate Hc.
Qed.

(** ** Attaching a channel *)

Lemma map_get_set {V : Type} (k : nat) (v : V) (m : list (nat * V)) :
  map_get k (map_set k v m) = Some v.
Proof.
  unfold map_get. induction m as [|[k' v'] m IH]; simpl.
  - now rewrite Nat.eqb_refl.
  - destruct (Nat.eqb_spec k k') as [->|Hne]; simpl.
    + now rewrite Nat.eqb_refl.
    + destruct (Nat.eqb_spec k' k) as [->|_]; [congruence | exact IH].
Qed.

(** C9, as the code has it.  A channel attach never fails: it answers 101
    with the client end of the pair, registers the server end under the
    requested role ([viewer] by default) and leaves the record and the stored
    record alone.  When the session is initialized it pushes to the new
    connection, right after accepting it, the snapshot
    [{type:"session-data", data:{sessionId, callsSessionId, trackNames}}] of
    the record at attach time ([callsSessionId] left out when unset,
    [trackNames] as [[]] when unset).  When the session is not initialized it
    pushes nothing. *)
Theorem attach_registers_and_snapshots (w : World) (st : State) (req : Request) :
  is_attach req ->
  outcome (fetch w st req) =
    Returned {| status := 101; content := Empty; webSocket := Some (fst (pair w)) |} /\
  map_get (snd (pair w)) (sessions (after (fetch w st req))) =
    Some (or_else (role req) "viewer") /\
  sessions (after (fetch w st req)) =
    map_set (snd (pair w)) (or_else (role req) "viewer") (sessions st) /\
  sessionData (after (fetch w st req)) = sessionData st /\
  storage (after (fetch w st req)) = storage st /\
  (forall d, sessionData st = Some d ->
     effects (fetch w st req) =
       [EAccept (snd (pair w)); ESend (snd (pair w)) (session_data_event d)]) /\
  (sessionData st = None ->
   effects (fetch w st req) = [EAccept (snd (pair w))]).
Proof.
  intros Hup. rewrite (fetch_upgrade _ _ _ Hup). unfold handle_upgrade. simpl.
  repeat split.
  - apply map_get_set.
  - now intros d ->.
  - now intros ->.
Qed.

Lemma attach_registers_and_snapshots_witness :
  is_attach (attach (Some "caster")) /\
  effects (fetch (world sfu_up (8, 9)) linked (attach (Some "caster"))) =
    [EAccept 9; ESend 9 (session_data_event linked_record)] /\
  map_get 9 (sessions (after (fetch (world sfu_up (8, 9)) linked (attach (Some "caster")))))
    = Some "caster".
Proof.
  destruct (attach_registers_and_snapshots (world sfu_up (8, 9)) linked
              (attach (Some "caster")) eq_refl)
    as (_ & Hreg & _ & _ & _ & Hsnap & _).
  split; [reflexivity | split; [exact (Hsnap linked_record eq_refl) | exact Hreg]].
Defined.

(** C9 as stated fails: a channel attached before [init] is registered and
    receives no snapshot. *)
Lemma attach_before_init_pushes_nothing :
  effects (fetch (world sfu_up (0, 1)) initial (attach None)) = [EAccept 1] /\
  sends (effects (fetch (world sfu_up (0, 1)) initial (attach None))) = [] /\
  map_get 1 (sessions (after (fetch (world sfu_up (0, 1)) initial (attach None))))
    = Some "viewer".
Proof. repeat split. Qed.

(** ** Removing a track *)

(** C10.  A remove-track request with the valid caster token always answers
    200 [{success:true}] and always broadcasts
    [{type:"track-removed", trackName}]: every attached connection that is
    open is sent the event once, in map order, and nothing else is sent.  This
    holds whether or not the name is in [trackNames]; when it is not (no
    track ever added included) the track set stays as it was and the event is
    broadcast all the same. *)
Theorem remove_track_always_broadcasts (w : World) (st : State) (req : Request)
    (d : SessionData) (name : string) :
  is_route req "POST" "/remove-track" ->
  body req = RemoveTrackBody name ->
  valid_token st req d ->
  outcome (fetch w st req) =
    Returned (json_response (obj [("success", Some (JBool true))])) /\
  sends (effects (fetch w st req)) =
    map (fun s => (s, track_removed_event name)) (open_sockets w st) /\
  (forall s r, In (s, r) (sessions st) -> readyState w s = OPEN ->
     In (s, track_removed_event name) (sends (effects (fetch w st req)))) /\
  (~ In name (tracks st) -> tracks (after (fetch w st req)) = tracks st).
Proof.
  intros Hroute Hbody Hauth.
  assert (Hsends : sends (effects (fetch w st req)) =
            map (fun s => (s, track_removed_event name)) (open_sockets w st)).
  { rewrite (fetch_remove_track _ _ _ Hroute). unfold handle_remove_track.
    rewrite (bearer_valid _ _ _ Hauth), Hbody.
    destruct (trackNames d); simpl; rewrite sends_broadcast; reflexivity. }
  split; [|split; [exact Hsends | split]].
  - rewrite (fetch_remove_track _ _ _ Hroute). unfold handle_remove_track.
    now rewrite (bearer_valid _ _ _ Hauth), Hbody.
  - intros s r Hin Hopen. rewrite Hsends. apply in_map_iff. exists s.
    split; [reflexivity|]. unfold open_sockets. apply filter_In. split.
    + apply in_map_iff. now exists (s, r).
    + now apply is_open_OPEN.
  - intros Habsent. now apply (remove_absent_keeps_tracks w st req name).
Qed.

Lemma remove_track_always_broadcasts_witness :
  valid_token started remove_ghost started_record /\
  tracks started = [] /\
  outcome (fetch (world sfu_up (4, 5)) started remove_ghost) =
    Returned (json_response (obj [("success", Some (JBool true))])) /\
  sends (effects (fetch (world sfu_up (4, 5)) started remove_ghost)) =
    [(3, track_removed_event "ghost")].
Proof.
  assert (Hauth : valid_token started remove_ghost started_record).
  { split; [reflexivity|]. exists "tok". split; reflexivity. }
  destruct (remove_track_always_broadcasts (world sfu_up (4, 5)) started remove_ghost
              started_record "ghost" (conj eq_refl (conj eq_refl eq_refl)) eq_refl Hauth)
    as (Hout & Hsends & _).
  split; [exact Hauth | split; [reflexivity | split; [exact Hout | exact Hsends]]].
Defined.

(** ** How a request can change the record *)

Lemma route_is (req : Request) (m suffix : string) :
  strict_eq (upgrade req) "websocket" = false ->
  route req m suffix = true ->
  is_route req m suffix.
Proof. intros Hup Hr. apply route_true in Hr as [Hm Hp]. now repeat split. Qed.

Ltac keeps :=
  left;
  repeat first
    [ reflexivity
    | solve [simpl; congruence]
    | match goal with
      | |- context [match ?x with _ => _ end] => destruct x eqn:?
      end ].

(** The record after a request is the record before it, or the result of one
    of four updates: creation by [init], the link set by an authorized
    [calls-session] that the SFU accepted, the name list set by an authorized
    [add-track] that the SFU accepted, or the filtered name list set by an
    authorized [remove-track]. *)
Lemma fetch_record_cases (w : World) (st : State) (req : Request) :
  sessionData (after (fetch w st req)) = sessionData st \/
  (is_route req "POST" "/init" /\ sessionData st = None /\
   sessionData (after (fetch w st req)) = Some (fresh_record w)) \/
  (exists d, is_route req "POST" "/calls-session" /\ bearer st req = Some d /\
     ok (upstream w (create_call w)) = true /\
     sessionData (after (fetch w st req)) =
       Some (set_callsSessionId d
               (as_string (prop (u_json (upstream w (create_call w))) "sessionId")))) \/
  (exists d cs name mid kind sd,
     is_route req "POST" "/add-track" /\ bearer st req = Some d /\
     body req = AddTrackBody cs name mid kind sd /\
     ok (upstream w (add_track_call w cs name mid kind sd)) = true /\
     sessionData (after (fetch w st req)) =
       Some (set_trackNames d
               (if array_includes (track_list d) name
                then track_list d
                else push (track_list d) name))) \/
  (exists d name names,
     is_route req "POST" "/remove-track" /\ bearer st req = Some d /\
     body req = RemoveTrackBody name /\ trackNames d = Some names /\
     sessionData (after (fetch w st req)) =
       Some (set_trackNames d (filter (fun tn => negb (String.eqb tn name)) names))).
Proof.
  unfold fetch.
  destruct (strict_eq (upgrade req) "websocket") eqn:Hup; [now left|].
  destruct (route req "POST" "/init") eqn:R1.
  { unfold handle_init. destruct (sessionData st) eqn:Hd; [now left|].
    right; left. split; [now apply route_is | split; reflexivity]. }
  destruct (route req "POST" "/calls-session") eqn:R2.
  { unfold handle_calls_session.
    destruct (bearer st req) as [d|] eqn:Hb; [|now left].
    fold (create_call w).
    destruct (ok (upstream w (create_call w))) eqn:Hok; [|now left].
    simpl negb. cbv iota.
    destruct (u_json (upstream w (create_call w))) eqn:Hj; try (now left);
      right; right; left; exists d;
      (split; [now apply route_is | split; [reflexivity | split; [reflexivity|]]]);
      reflexivity. }
  destruct (route req "POST" "/init-connection"); [unfold handle_init_connection; keeps|].
  destruct (route req "POST" "/renegotiate"); [unfold handle_renegotiate; keeps|].
  destruct (route req "POST" "/add-track") eqn:R5.
  { unfold handle_add_track.
    destruct (bearer st req) as [d|] eqn:Hb; [|now left].
    destruct (body req) eqn:Hbody; try (now left).
    destruct (ok (upstream w (add_track_call w callsSessionId0 trackName mid kind
                                sessionDescription))) eqn:Hok; [|now left].
    right; right; right; left.
    exists d, callsSessionId0, trackName, mid, kind, sessionDescription.
    split; [now apply route_is|]. repeat split; try assumption.
    simpl. destruct (array_includes (track_list d) trackName); reflexivity. }
  destruct (route req "POST" "/new-session"); [unfold handle_new_session; keeps|].
  destruct (route req "POST" "/pull-tracks"); [unfold handle_pull_tracks; keeps|].
  destruct (route req "POST" "/viewer-renegotiate");
    [unfold handle_viewer_renegotiate; keeps|].
  destruct (route req "POST" "/remove-track") eqn:R9.
  { unfold handle_remove_track.
    destruct (bearer st req) as [d|] eqn:Hb; [|now left].
    destruct (body req) eqn:Hbody; try (now left).
    destruct (trackNames d) as [names|] eqn:Hn.
    - right; right; right; right. exists d, trackName, names.
      split; [now apply route_is|]. repeat split; assumption.
    - left. simpl. now apply bearer_record in Hb. }
  destruct (route req "GET" "/info"); [unfold handle_info; keeps|].
  destruct (route req "GET" "/calls-state"); [unfold handle_calls_state; keeps|].
  destruct (route req "POST" "/viewer-calls-state");
    [unfold handle_viewer_calls_state; keeps|].
  now left.
Qed.

Lemma reachable_induction (P : State -> Prop) :
  P initial ->
  (forall st ev, reachable st -> P st -> P (step st ev)) ->
  forall st, reachable st -> P st.
Proof.
  intros Hinit Hstep st [evs <-].
  induction evs as [|ev evs IH] using rev_ind; [exact Hinit|].
  unfold run. rewrite fold_left_app. simpl.
  apply Hstep; [now exists evs | exact IH].
Qed.

Lemma reachable_run (st : State) (evs : list Event) :
  reachable st -> reachable (run st evs).
Proof.
  intros [evs0 <-]. exists (evs0 ++ evs)%list. unfold run. now rewrite fold_left_app.
Qed.

(** ** Durability and identity *)

(** X1.  In every reachable state the stored record is the record in
    memory, so the constructor that runs after an eviction reads back exactly
    the record the object had; the connection map starts empty again. *)
Theorem restart_restores_the_record (st : State) :
  reachable st ->
  storage st = sessionData st /\
  sessionData (step st Restart) = sessionData st /\
  storage (step st Restart) = storage st /\
  sessions (step st Restart) = [].
Proof.
  intros Hr. destruct (reachable_consistent _ Hr) as [Hs _].
  simpl. repeat split; assumption.
Qed.

Lemma restart_restores_the_record_witness :
  reachable tracks_without_link /\
  sessionData (step tracks_without_link Restart) = sessionData tracks_without_link.
Proof.
  assert (Hr : reachable tracks_without_link) by (eexists; reflexivity).
  split; [exact Hr|].
  exact (proj1 (proj2 (restart_restores_the_record tracks_without_link Hr))).
Defined.

(** X2.  Once a record exists it exists for ever, and its [sessionId],
    [casterToken] and [createdAt] never change, whatever requests, socket
    events and restarts follow. *)
Theorem identity_is_immutable (st : State) (d : SessionData) (evs : list Event) :
  reachable st ->
  sessionData st = Some d ->
  exists d',
    sessionData (run st evs) = Some d' /\
    sessionId d' = sessionId d /\
    casterToken d' = casterToken d /\
    createdAt d' = createdAt d.
Proof.
  intros Hr Hd.
  destruct (run_evolves evs st (reachable_consistent _ Hr)) as [_ Hid].
  exact (Hid d Hd).
Qed.

Lemma identity_is_immutable_witness :
  reachable started /\
  sessionData started = Some started_record /\
  exists d',
    sessionData (run started [Fetch (world sfu_up (4, 5)) create_sfu_session;
                              Fetch (world sfu_up (4, 5)) add_v1; Restart]) = Some d' /\
    casterToken d' = Some "tok".
Proof.
  assert (Hr : reachable started) by (eexists; reflexivity).
  split; [exact Hr | split; [reflexivity|]].
  destruct (identity_is_immutable started started_record
              [Fetch (world sfu_up (4, 5)) create_sfu_session;
               Fetch (world sfu_up (4, 5)) add_v1; Restart] Hr eq_refl)
    as (d' & Hd' & _ & Htok & _).
  exists d'. split; [exact Hd' | exact Htok].
Defined.

(** X3.  Only [POST .../init] creates the record: if an event takes the
    object from no record to a record, the event is an [init] request, and the
    record (in memory and in storage) is the fresh one, made of the first
    eight characters of the object id, the clock, and a new random token, with
    no SFU session and no tracks. *)
Theorem only_init_initializes (st : State) (ev : Event) :
  reachable st ->
  sessionData st = None ->
  sessionData (step st ev) <> None ->
  exists w req,
    ev = Fetch w req /\
    is_route req "POST" "/init" /\
    sessionData (step st ev) = Some (fresh_record w) /\
    storage (step st ev) = Some (fresh_record w).
Proof.
  intros Hr Hnone Hsome.
  destruct (reachable_consistent _ (reachable_step st ev Hr)) as [Hst _].
  destruct ev as [w req| | | |]; simpl in *; try congruence.
  - exists w, req. split; [reflexivity|].
    destruct (fetch_record_cases w st req)
      as [Hsame | [(Hroute & _ & Hnew) | [(d & _ & Hb & _) | [(d & cs & name & mid & kind & sd & _ & Hb & _) | (d & name & names & _ & Hb & _)]]]];
      try (apply bearer_record in Hb); try congruence.
    split; [assumption|]. split; [assumption | congruence].
  - destruct (reachable_consistent _ Hr) as [Hs _]. congruence.
Qed.

Lemma only_init_initializes_witness :
  reachable initial /\
  sessionData initial = None /\
  sessionData (step initial (Fetch (world sfu_up (0, 1)) (http_post "/init" None NoBody)))
    = Some started_record.
Proof.
  assert (Hr : reachable initial) by (exists []; reflexivity).
  split; [exact Hr | split; [reflexivity|]].
  destruct (only_init_initializes initial
              (Fetch (world sfu_up (0, 1)) (http_post "/init" None NoBody))
              Hr eq_refl ltac:(discriminate))
    as (w & req & Hev & _ & Hrec & _).
  injection Hev as <- <-. exact Hrec.
Defined.



(** ** Creating the SFU session *)

(** X5.  A [calls-session] request with the valid caster token that the SFU
    answers with a success carrying a [sessionId] stores that id in the record
    (replacing any id already there, and touching nothing else), writes the
    record to storage after the upstream call, broadcasts
    [{type:"calls-session-ready", sessionId}] to the open connections and
    returns the id with the SFU's [sessionDescription].  From then on [info]
    reports [ready:true] with that id, provided the id is not empty. *)
Theorem calls_session_links (w : World) (st : State) (req : Request)
    (d : SessionData) (sid : string) :
  is_route req "POST" "/calls-session" ->
  valid_token st req d ->
  ok (upstream w (create_call w)) = true ->
  prop (u_json (upstream w (create_call w))) "sessionId" = Some (JStr sid) ->
  outcome (fetch w st req) =
    Returned (json_response
                (obj [("sessionId", str sid);
                      ("sessionDescription",
                       prop (u_json (upstream w (create_call w))) "sessionDescription")])) /\
  after (fetch w st req) =
    {| sessions := sessions st;
       sessionData := Some (set_callsSessionId d (Some sid));
       storage := Some (set_callsSessionId d (Some sid)) |} /\
  effects (fetch w st req) =
    EFetch (create_call w) :: EPut (set_callsSessionId d (Some sid)) ::
    broadcast w st (calls_session_ready_event (u_json (upstream w (create_call w)))) /\
  (sid <> "" ->
   forall w' req', is_route req' "GET" "/info" ->
     outcome (fetch w' (after (fetch w st req)) req') =
       Returned (json_response
                   (obj [("ready", Some (JBool true));
                         ("callsSessionId", str sid);
                         ("trackNames", Some (JArr (map JStr (track_list d))))]))).
Proof.
  intros Hroute Hauth Hok Hsid.
  assert (Hfetch : fetch w st req =
    respond (json_response
               (obj [("sessionId", str sid);
                     ("sessionDescription",
                      prop (u_json (upstream w (create_call w))) "sessionDescription")]))
            {| sessions := sessions st;
               sessionData := Some (set_callsSessionId d (Some sid));
               storage := Some (set_callsSessionId d (Some sid)) |}
            (EFetch (create_call w) :: EPut (set_callsSessionId d (Some sid)) ::
             broadcast w st
               (calls_session_ready_event (u_json (upstream w (create_call w)))))).
  { rewrite (fetch_calls_session _ _ _ Hroute). unfold handle_calls_session.
    rewrite (bearer_valid _ _ _ Hauth). fold (create_call w). rewrite Hok.
    unfold calls_session_ready_event.
    destruct (u_json (upstream w (create_call w))) eqn:Hj;
      try discriminate Hsid; cbn [negb]; cbv iota; rewrite Hsid; reflexivity. }
  rewrite Hfetch. repeat split.
  intros Hne w' req' Hinfo. rewrite (fetch_info _ _ _ Hinfo).
  unfold handle_info. simpl.
  destruct (String.eqb_spec sid ""); [contradiction | reflexivity].
Qed.

Lemma calls_session_links_witness :
  valid_token linked create_sfu_session linked_record /\
  ok (sfu_up (create_call (world sfu_up (4, 5)))) = true /\
  sessionData (after (fetch (world sfu_up (4, 5)) linked create_sfu_session)) =
    Some linked_record.
Proof.
  assert (Hauth : valid_token linked create_sfu_session linked_record).
  { split; [reflexivity|]. exists "tok". split; reflexivity. }
  destruct (calls_session_links (world sfu_up (4, 5)) linked create_sfu_session
              linked_record "sfu1" (conj eq_refl (conj eq_refl eq_refl)) Hauth
              eq_refl eq_refl) as (_ & Hafter & _).
  split; [exact Hauth | split; [reflexivity|]].
  rewrite Hafter. reflexivity.
Defined.

(** X6.  A [calls-session] request with the valid caster token that the SFU
    answers with a non-success status returns 500 and leaves the object as it
    was: the SFU session id is not set or replaced, nothing is written, nothing
    is broadcast, and [info] answers as it did before the request. *)
Theorem calls_session_failure_keeps_state (w : World) (st : State) (req : Request)
    (d : SessionData) :
  is_route req "POST" "/calls-session" ->
  valid_token st req d ->
  ok (upstream w (create_call w)) = false ->
  (exists text, outcome (fetch w st req) = Returned (plain text 500)) /\
  after (fetch w st req) = st /\
  effects (fetch w st req) = [EFetch (create_call w)] /\
  forall w' req', is_route req' "GET" "/info" ->
    outcome (fetch w' (after (fetch w st req)) req') = outcome (fetch w' st req').
Proof.
  intros Hroute Hauth Hok.
  assert (Hfetch : fetch w st req =
    respond (plain "Failed to create Calls session" 500) st [EFetch (create_call w)]).
  { rewrite (fetch_calls_session _ _ _ Hroute). unfold handle_calls_session.
    rewrite (bearer_valid _ _ _ Hauth). fold (create_call w). now rewrite Hok. }
  rewrite Hfetch. simpl. repeat split. now eexists.
Qed.

Lemma calls_session_failure_keeps_state_witness :
  valid_token started create_sfu_session started_record /\
  ok (sfu_down (create_call (world sfu_down (4, 5)))) = false /\
  after (fetch (world sfu_down (4, 5)) started create_sfu_session) = started.
Proof.
  assert (Hauth : valid_token started create_sfu_session started_record).
  { split; [reflexivity|]. exists "tok". split; reflexivity. }
  destruct (calls_session_failure_keeps_state (world sfu_down (4, 5)) started
              create_sfu_session started_record
              (conj eq_refl (conj eq_refl eq_refl)) Hauth eq_refl) as (_ & Hafter & _).
  split; [exact Hauth | split; [reflexivity | exact Hafter]].
Defined.

(** ** What a request does and does not do *)

Arguments broadcast : simpl never.

Lemma fetches_app (fx fy : list Effect) :
  fetches (fx ++ fy) = (fetches fx ++ fetches fy)%list.
Proof.
  induction fx as [|e fx IH]; simpl; [reflexivity|].
  destruct e; simpl; now rewrite IH.
Qed.

Lemma fetches_broadcast (w : World) (st : State) (message : JSON) :
  fetches (broadcast w st message) = [].
Proof.
  unfold broadcast.
  induction (sessions st) as [|[s r] m IH]; simpl; [reflexivity|].
  destruct (is_open (readyState w s)); simpl; assumption.
Qed.

Ltac paths :=
  repeat match goal with
    | |- context [match ?x with _ => _ end] => destruct x eqn:?
    end.

Ltac quiet :=
  let H := fresh in
  paths; intros H; exfalso; simpl in H;
  destruct H as [H | [H | H]]; now apply H.

(** X7.  Only five kinds of request act on the object.  If a request
    changes the state, writes to storage or sends anything to a connection,
    then it is a channel attach, [init], [calls-session], [add-track] or
    [remove-track]; every other request (the relays to the Calls API, [info],
    [calls-state], unknown paths) leaves the object exactly as it was and is
    invisible to the attached connections. *)
Theorem only_five_requests_act (w : World) (st : State) (req : Request) :
  after (fetch w st req) <> st \/
  writes (effects (fetch w st req)) <> [] \/
  sends (effects (fetch w st req)) <> [] ->
  is_attach req \/
  is_route req "POST" "/init" \/
  is_route req "POST" "/calls-session" \/
  is_route req "POST" "/add-track" \/
  is_route req "POST" "/remove-track".
Proof.
  unfold fetch.
  destruct (strict_eq (upgrade req) "websocket") eqn:Hup.
  { intros _. left. unfold is_attach, strict_eq in *.
    destruct (upgrade req) as [u|]; [|discriminate].
    apply String.eqb_eq in Hup. now subst. }
  destruct (route req "POST" "/init") eqn:R1.
  { intros _. right; left. now apply route_is. }
  destruct (route req "POST" "/calls-session") eqn:R2.
  { intros _. right; right; left. now apply route_is. }
  destruct (route req "POST" "/init-connection"); [unfold handle_init_connection; quiet|].
  destruct (route req "POST" "/renegotiate"); [unfold handle_renegotiate; quiet|].
  destruct (route req "POST" "/add-track") eqn:R5.
  { intros _. right; right; right; left. now apply route_is. }
  destruct (route req "POST" "/new-session"); [unfold handle_new_session; quiet|].
  destruct (route req "POST" "/pull-tracks"); [unfold handle_pull_tracks; quiet|].
  destruct (route req "POST" "/viewer-renegotiate");
    [unfold handle_viewer_renegotiate; quiet|].
  destruct (route req "POST" "/remove-track") eqn:R9.
  { intros _. right; right; right; right. now apply route_is. }
  destruct (route req "GET" "/info"); [unfold handle_info; quiet|].
  destruct (route req "GET" "/calls-state"); [unfold handle_calls_state; quiet|].
  destruct (route req "POST" "/viewer-calls-state");
    [unfold handle_viewer_calls_state; quiet|].
  quiet.
Qed.

Lemma only_five_requests_act_witness :
  sends (effects (fetch (world sfu_up (4, 5)) started remove_ghost)) <> [] /\
  is_route remove_ghost "POST" "/remove-track".
Proof.
  assert (Hsends : sends (effects (fetch (world sfu_up (4, 5)) started remove_ghost)) <> [])
    by discriminate.
  split; [exact Hsends|].
  destruct (only_five_requests_act (world sfu_up (4, 5)) started remove_ghost
              (or_intror (or_intror Hsends)))
    as [H | [H | [H | [H | H]]]]; try exact H;
    try (destruct H as (_ & _ & H); discriminate H).
  discriminate H.
Defined.

Ltac one_write :=
  let H := fresh in
  paths; simpl; rewrite ?writes_broadcast; simpl; intros H;
  try contradiction;
  destruct H as [<- | []]; repeat split.

(** X8.  A request writes to storage at most once, and what it writes is
    the record as it stands when the request ends: after a write the record in
    memory and the stored record are both the written one. *)
Theorem a_write_stores_the_final_record (w : World) (st : State) (req : Request)
    (d : SessionData) :
  In d (writes (effects (fetch w st req))) ->
  writes (effects (fetch w st req)) = [d] /\
  sessionData (after (fetch w st req)) = Some d /\
  storage (after (fetch w st req)) = Some d.
Proof.
  unfold fetch.
  repeat match goal with
    | |- context [if ?c then _ else _] => destruct c
    end.
  - unfold handle_upgrade. one_write.
  - unfold handle_init. one_write.
  - unfold handle_calls_session. one_write.
  - unfold handle_init_connection. one_write.
  - unfold handle_renegotiate. one_write.
  - unfold handle_add_track. one_write.
  - unfold handle_new_session. one_write.
  - unfold handle_pull_tracks. one_write.
  - unfold handle_viewer_renegotiate. one_write.
  - unfold handle_remove_track. one_write.
  - unfold handle_info. one_write.
  - unfold handle_calls_state. one_write.
  - unfold handle_viewer_calls_state. one_write.
  - simpl. contradiction.
Qed.

Lemma a_write_stores_the_final_record_witness :
  In (set_trackNames started_record ["v1"])
     (writes (effects (fetch (world sfu_up (4, 5)) started add_v1))) /\
  storage (after (fetch (world sfu_up (4, 5)) started add_v1)) =
    Some (set_trackNames started_record ["v1"]).
Proof.
  assert (Hin : In (set_trackNames started_record ["v1"])
                   (writes (effects (fetch (world sfu_up (4, 5)) started add_v1))))
    by (left; reflexivity).
  split; [exact Hin|].
  exact (proj2 (proj2 (a_write_stores_the_final_record _ _ _ _ Hin))).
Defined.

Arguments calls : simpl never.

Lemma prefix_app_cancel (a x y : string) : prefix (a ++ x) (a ++ y) = prefix x y.
Proof.
  induction a as [|c a IH]; simpl; [reflexivity|].
  destruct (ascii_dec c c); [assumption | congruence].
Qed.

Lemma prefix_app_self (a b : string) : prefix a (a ++ b) = true.
Proof.
  induction a as [|c a IH]; simpl; [now destruct b|].
  destruct (ascii_dec c c); [assumption | congruence].
Qed.

Lemma calls_prefix (w : World) (m path : string) (ct : option string) (b : option JSON) :
  prefix "/sessions/" path = true ->
  prefix (sessions_api w) (u_url (calls w m path ct b)) = true.
Proof.
  intros H. unfold sessions_api, calls. cbn [u_url].
  now rewrite !prefix_app_cancel.
Qed.

Ltac one_call w :=
  let H := fresh in
  unfold add_track_call;
  paths; simpl; rewrite ?fetches_broadcast; simpl; intros H;
  try contradiction;
  destruct H as [<- | []];
  (split; [reflexivity | split; [reflexivity | apply calls_prefix]]);
  first [reflexivity | exact (prefix_app_self "/sessions/" _)].

(** X9.  A request makes at most one upstream call, and every upstream call
    goes to the sessions of this application on the Calls API and carries the
    application secret as its bearer token; the caster token never stands in
    for it. *)
Theorem upstream_calls_carry_the_secret (w : World) (st : State) (req : Request)
    (rq : UpstreamRequest) :
  In rq (fetches (effects (fetch w st req))) ->
  fetches (effects (fetch w st req)) = [rq] /\
  u_authorization rq = "Bearer " ++ CALLS_APP_SECRET w /\
  prefix (sessions_api w) (u_url rq) = true.
Proof.
  unfold fetch.
  repeat match goal with
    | |- context [if ?c then _ else _] => destruct c
    end.
  - unfold handle_upgrade. one_call w.
  - unfold handle_init. one_call w.
  - unfold handle_calls_session. one_call w.
  - unfold handle_init_connection. one_call w.
  - unfold handle_renegotiate. one_call w.
  - unfold handle_add_track. one_call w.
  - unfold handle_new_session. one_call w.
  - unfold handle_pull_tracks. one_call w.
  - unfold handle_viewer_renegotiate. one_call w.
  - unfold handle_remove_track. one_call w.
  - unfold handle_info. one_call w.
  - unfold handle_calls_state. one_call w.
  - unfold handle_viewer_calls_state. one_call w.
  - simpl. contradiction.
Qed.

Lemma upstream_calls_carry_the_secret_witness :
  In (add_track_call (world sfu_up (4, 5)) "sfu1" "v1" None None None)
     (fetches (effects (fetch (world sfu_up (4, 5)) started add_v1))) /\
  u_authorization (add_track_call (world sfu_up (4, 5)) "sfu1" "v1" None None None) =
    "Bearer secret".
Proof.
  assert (Hin : In (add_track_call (world sfu_up (4, 5)) "sfu1" "v1" None None None)
                   (fetches (effects (fetch (world sfu_up (4, 5)) started add_v1))))
    by (left; reflexivity).
  split; [exact Hin|].
  exact (proj1 (proj2 (upstream_calls_carry_the_secret _ _ _ _ Hin))).
Defined.

(** X10.  A request that is not an upgrade and whose method is not [POST]
    is answered 404 [Not Found] with the object untouched and no effect,
    unless it is a [GET] for a path ending in [/info] or [/calls-state]. *)
Theorem unknown_requests_get_404 (w : World) (st : State) (req : Request) :
  strict_eq (upgrade req) "websocket" = false ->
  method req <> "POST" ->
  method req <> "GET" \/
  (endsWith (pathname req) "/info" = false /\
   endsWith (pathname req) "/calls-state" = false) ->
  fetch w st req = respond (plain "Not Found" 404) st [].
Proof.
  intros Hup Hpost Hget. unfold fetch, route. rewrite Hup.
  apply String.eqb_neq in Hpost. rewrite Hpost. cbn [andb].
  destruct Hget as [Hget | [Hinfo Hstate]].
  - apply String.eqb_neq in Hget. rewrite Hget. reflexivity.
  - rewrite Hinfo, Hstate, !andb_false_r. reflexivity.
Qed.

Lemma unknown_requests_get_404_witness :
  method (http_get "/api/status") <> "POST" /\
  fetch (world sfu_up (4, 5)) linked (http_get "/api/status") =
    respond (plain "Not Found" 404) linked [].
Proof.
  assert (Hm : method (http_get "/api/status") <> "POST") by discriminate.
  split; [exact Hm|].
  exact (unknown_requests_get_404 (world sfu_up (4, 5)) linked (http_get "/api/status")
           eq_refl Hm (or_intror (conj eq_refl eq_refl))).
Defined.

(** ** The connection map *)

Lemma fetch_sessions (w : World) (st : State) (req : Request) :
  sessions (after (fetch w st req)) = sessions st \/
  (strict_eq (upgrade req) "websocket" = true /\
   sessions (after (fetch w st req)) =
     map_set (snd (pair w)) (or_else (role req) "viewer") (sessions st)).
Proof.
  unfold fetch.
  destruct (strict_eq (upgrade req) "websocket") eqn:Hup; [right; now split|].
  left.
  repeat match goal with
    | |- context [if ?c then _ else _] => destruct c
    end;
  unfold handle_init, handle_calls_session, handle_init_connection, handle_renegotiate,
    handle_add_track, handle_new_session, handle_pull_tracks, handle_viewer_renegotiate,
    handle_remove_track, handle_info, handle_calls_state, handle_viewer_calls_state;
  paths; reflexivity.
Qed.

Lemma keys_map_set {V : Type} (k : nat) (v : V) (m : list (nat * V)) (x : nat) :
  In x (map fst (map_set k v m)) -> x = k \/ In x (map fst m).
Proof.
  induction m as [|[k' v'] m IH]; simpl.
  - intros [<- | []]. now left.
  - destruct (Nat.eqb_spec k k') as [->|Hne]; simpl.
    + intros [<- | H]; [right; now left | right; now right].
    + intros [<- | H]; [right; now left|].
      destruct (IH H) as [-> | Hin]; [now left | right; now right].
Qed.

Lemma NoDup_map_set {V : Type} (k : nat) (v : V) (m : list (nat * V)) :
  NoDup (map fst m) -> NoDup (map fst (map_set k v m)).
Proof.
  induction m as [|[k' v'] m IH]; simpl; intros Hnd.
  - constructor; [intros [] | constructor].
  - inversion Hnd as [|? ? Hnotin Hrest]; subst.
    destruct (Nat.eqb_spec k k') as [->|Hne]; simpl.
    + now constructor.
    + constructor; [|now apply IH].
      intros Hin. apply keys_map_set in Hin as [-> | Hin]; [congruence | contradiction].
Qed.

Lemma keys_map_delete {V : Type} (k : nat) (m : list (nat * V)) :
  map fst (map_delete k m) = filter (fun s => negb (Nat.eqb s k)) (map fst m).
Proof.
  unfold map_delete. induction m as [|[k' v'] m IH]; simpl; [reflexivity|].
  destruct (negb (Nat.eqb k' k)); simpl; now rewrite IH.
Qed.

Lemma map_get_delete {V : Type} (k : nat) (m : list (nat * V)) :
  map_get k (map_delete k m) = None.
Proof.
  unfold map_get, map_delete. induction m as [|[k' v'] m IH]; simpl; [reflexivity|].
  destruct (Nat.eqb k' k) eqn:E; simpl; [exact IH | now rewrite E].
Qed.

Lemma map_get_delete_other {V : Type} (k s : nat) (m : list (nat * V)) :
  s <> k -> map_get s (map_delete k m) = map_get s m.
Proof.
  intros Hne. unfold map_get, map_delete.
  induction m as [|[k' v'] m IH]; simpl; [reflexivity|].
  destruct (Nat.eqb_spec k' k) as [->|Hk]; simpl.
  - destruct (Nat.eqb_spec k s); [congruence | exact IH].
  - destruct (Nat.eqb_spec k' s); [reflexivity | exact IH].
Qed.

Lemma filter_swap {A : Type} (f g : A -> bool) (l : list A) :
  filter f (filter g l) = filter g (filter f l).
Proof.
  induction l as [|a l IH]; simpl; [reflexivity|].
  destruct (f a) eqn:Ef, (g a) eqn:Eg; simpl; rewrite ?Ef, ?Eg, IH; reflexivity.
Qed.

(** X11.  When a socket closes or errors, it leaves the connection map at
    once and alone: it can no longer be looked up, every other connection
    keeps its entry, the record is untouched, and a broadcast after the close
    reaches exactly the connections it reached before, minus the closed one.
    The close callback closes the server end with the code and reason it was
    given; the error callback does the same removal and nothing else. *)
Theorem close_detaches (st : State) (ws : Socket) (code : nat) (reason : string) :
  map_get ws (sessions (step st (OnClose ws code reason))) = None /\
  (forall s, s <> ws ->
     map_get s (sessions (step st (OnClose ws code reason))) = map_get s (sessions st)) /\
  (forall w, open_sockets w (step st (OnClose ws code reason)) =
             filter (fun s => negb (Nat.eqb s ws)) (open_sockets w st)) /\
  (forall w message,
     ~ In (ws, message)
          (sends (broadcast w (step st (OnClose ws code reason)) message))) /\
  sessionData (step st (OnClose ws code reason)) = sessionData st /\
  storage (step st (OnClose ws code reason)) = storage st /\
  snd (webSocketClose st ws code reason) = [EClose ws code reason] /\
  step st (OnError ws) = step st (OnClose ws code reason).
Proof.
  assert (Hopen : forall w, open_sockets w (step st (OnClose ws code reason)) =
                            filter (fun s => negb (Nat.eqb s ws)) (open_sockets w st)).
  { intros w. unfold open_sockets. simpl. rewrite keys_map_delete. apply filter_swap. }
  simpl. repeat split.
  - apply map_get_delete.
  - intros s Hne. now apply map_get_delete_other.
  - exact Hopen.
  - intros w message Hin. rewrite sends_broadcast, Hopen in Hin.
    apply in_map_iff in Hin as (s & [= ->] & Hin).
    apply filter_In in Hin as [_ Hne]. now rewrite Nat.eqb_refl in Hne.
Qed.

Lemma NoDup_tagged (message : JSON) (l : list Socket) :
  NoDup l -> NoDup (map (fun s => (s, message)) l).
Proof.
  induction 1 as [|s l Hnotin _ IH]; simpl; constructor; [|exact IH].
  intros Hin. apply in_map_iff in Hin as (s' & [= ->] & Hin). contradiction.
Qed.

(** X12.  In every reachable state the connection map has one entry per
    socket, so a broadcast sends each open attached connection exactly one
    copy of the event. *)
Theorem connections_are_unique (st : State) :
  reachable st ->
  NoDup (map fst (sessions st)) /\
  forall w message, NoDup (sends (broadcast w st message)).
Proof.
  intros Hr.
  assert (Hnd : NoDup (map fst (sessions st))).
  { revert st Hr. apply reachable_induction; [constructor|].
    intros st ev _ IH. destruct ev as [w req| | | |]; simpl.
    - destruct (fetch_sessions w st req) as [-> | [_ ->]];
        [assumption | now apply NoDup_map_set].
    - assumption.
    - rewrite keys_map_delete. now apply NoDup_filter.
    - rewrite keys_map_delete. now apply NoDup_filter.
    - constructor. }
  split; [exact Hnd|].
  intros w message. rewrite sends_broadcast.
  apply NoDup_tagged. unfold open_sockets. now apply NoDup_filter.
Qed.

Lemma connections_are_unique_witness :
  reachable started /\ NoDup (map fst (sessions started)).
Proof.
  assert (Hr : reachable started) by (eexists; reflexivity).
  split; [exact Hr | exact (proj1 (connections_are_unique started Hr))].
Defined.

(** ** The track list *)

Lemma remove_track_tracks (w : World) (st : State) (req : Request) (d : SessionData)
    (name : string) :
  is_route req "POST" "/remove-track" ->
  body req = RemoveTrackBody name ->
  valid_token st req d ->
  tracks (after (fetch w st req)) =
    filter (fun tn => negb (String.eqb tn name)) (tracks st) /\
  link (after (fetch w st req)) = link st.
Proof.
  intros Hroute Hbody Hauth.
  rewrite (fetch_remove_track _ _ _ Hroute). unfold handle_remove_track.
  rewrite (bearer_valid _ _ _ Hauth), Hbody.
  destruct Hauth as (Hd & _). unfold tracks, link, track_list. rewrite Hd.
  destruct (trackNames d) as [names|] eqn:Hn; simpl; [now split|].
  rewrite Hd, Hn. now split.
Qed.

Lemma filter_after_push (l : list string) (name : string) :
  ~ In name l ->
  filter (fun tn => negb (String.eqb tn name)) (push l name) = l.
Proof.
  intros Hnotin. unfold push. rewrite filter_app. simpl.
  rewrite String.eqb_refl. simpl. rewrite app_nil_r. now apply filter_absent.
Qed.

(** X13.  In every reachable state the track names are pairwise distinct. *)
Theorem track_names_are_distinct (st : State) :
  reachable st -> NoDup (tracks st).
Proof.
  revert st. apply reachable_induction; [constructor|].
  intros st ev Hr IH. pose proof (reachable_consistent _ Hr) as [Hs _].
  destruct ev as [w req| | | |]; simpl; try assumption.
  - unfold tracks in *.
    destruct (fetch_record_cases w st req)
      as [Hsame | [(_ & _ & Hnew) | [(d & _ & Hb & _ & Hnew) | [(d & cs & name & mid & kind & sd & _ & Hb & _ & _ & Hnew) | (d & name & names & _ & Hb & _ & Hn & Hnew)]]]];
      rewrite ?Hsame, ?Hnew; try assumption;
      try (apply bearer_record in Hb; rewrite Hb in IH).
    + constructor.
    + exact IH.
    + unfold track_list at 1. simpl.
      destruct (array_includes (track_list d) name) eqn:Hin; [exact IH|].
      unfold push. apply NoDup_app; [exact IH | repeat constructor; intros [] | ].
      intros x Hx [<- | []].
      apply array_includes_In in Hx. congruence.
    + unfold track_list in *. simpl. rewrite Hn in IH. now apply NoDup_filter.
  - unfold tracks, restart in *. simpl. now rewrite Hs.
Qed.

Lemma track_names_are_distinct_witness :
  reachable tracks_without_link /\ NoDup (tracks tracks_without_link).
Proof.
  assert (Hr : reachable tracks_without_link) by (eexists; reflexivity).
  split; [exact Hr | exact (track_names_are_distinct _ Hr)].
Defined.

(** X14.  A remove-track request with the valid caster token removes the
    name and only the name: afterwards the name is not in the track list, every
    other name is there if and only if it was, in the same order, and the SFU
    session id is untouched. *)
Theorem remove_track_deletes_the_name (w : World) (st : State) (req : Request)
    (d : SessionData) (name : string) :
  is_route req "POST" "/remove-track" ->
  body req = RemoveTrackBody name ->
  valid_token st req d ->
  tracks (after (fetch w st req)) =
    filter (fun tn => negb (String.eqb tn name)) (tracks st) /\
  ~ In name (tracks (after (fetch w st req))) /\
  (forall other, other <> name ->
     (In other (tracks (after (fetch w st req))) <-> In other (tracks st))) /\
  link (after (fetch w st req)) = link st.
Proof.
  intros Hroute Hbody Hauth.
  destruct (remove_track_tracks w st req d name Hroute Hbody Hauth) as [Ht Hl].
  rewrite Ht. split; [reflexivity | split; [|split; [|exact Hl]]].
  - intros Hin. apply filter_In in Hin as [_ Hne].
    now rewrite String.eqb_refl in Hne.
  - intros other Hne. rewrite filter_In. split; [now intros [H _]|].
    intros H. split; [exact H|]. now apply negb_true_iff, String.eqb_neq.
Qed.

Lemma remove_track_deletes_the_name_witness :
  valid_token tracks_without_link
    remove_v1 (set_trackNames started_record ["v1"]) /\
  tracks tracks_without_link = ["v1"] /\
  tracks (after (fetch (world sfu_up (4, 5)) tracks_without_link remove_v1)) = [].
Proof.
  assert (Hauth : valid_token tracks_without_link remove_v1
            (set_trackNames started_record ["v1"])).
  { split; [reflexivity|]. exists "tok". split; reflexivity. }
  split; [exact Hauth | split; [reflexivity|]].
  rewrite (proj1 (remove_track_deletes_the_name (world sfu_up (4, 5)) tracks_without_link
                    remove_v1 _ "v1" (conj eq_refl (conj eq_refl eq_refl)) eq_refl Hauth)).
  reflexivity.
Defined.

(** X15.  An add-track request with the valid caster token for a name that
    is not yet in the list, accepted by the SFU, appends the name at the end of
    the list, returns the SFU's answer as it is, writes the record once and
    sends [{type:"track-added", trackName}] to every open connection; the SFU
    session id is untouched. *)
Theorem add_track_appends (w : World) (st : State) (req : Request)
    (d : SessionData) (cs name : string) (mid kind : option string)
    (sd : option JSON) :
  is_route req "POST" "/add-track" ->
  body req = AddTrackBody cs name mid kind sd ->
  valid_token st req d ->
  ok (upstream w (add_track_call w cs name mid kind sd)) = true ->
  ~ In name (tracks st) ->
  tracks (after (fetch w st req)) = push (tracks st) name /\
  outcome (fetch w st req) =
    Returned (json_response (u_json (upstream w (add_track_call w cs name mid kind sd)))) /\
  writes (effects (fetch w st req)) = [set_trackNames d (push (tracks st) name)] /\
  sends (effects (fetch w st req)) =
    map (fun s => (s, track_added_event name)) (open_sockets w st) /\
  link (after (fetch w st req)) = link st.
Proof.
  intros Hroute Hbody Hauth Hok Hnotin.
  rewrite (add_track_succeeded w st req d cs name mid kind sd) by assumption.
  destruct Hauth as (Hd & _). unfold tracks, link in *. rewrite Hd in *.
  destruct (array_includes (track_list d) name) eqn:Hin;
    [apply array_includes_In in Hin; contradiction|].
  simpl. rewrite writes_broadcast, sends_broadcast. repeat split.
Qed.

Lemma add_track_appends_witness :
  valid_token started add_v1 started_record /\
  ~ In "v1" (tracks started) /\
  sends (effects (fetch (world sfu_up (4, 5)) started add_v1)) =
    [(3, track_added_event "v1")].
Proof.
  assert (Hauth : valid_token started add_v1 started_record).
  { split; [reflexivity|]. exists "tok". split; reflexivity. }
  assert (Hnotin : ~ In "v1" (tracks started)) by (intros []).
  split; [exact Hauth | split; [exact Hnotin|]].
  destruct (add_track_appends (world sfu_up (4, 5)) started add_v1 started_record
              "sfu1" "v1" None None None (conj eq_refl (conj eq_refl eq_refl))
              eq_refl Hauth eq_refl Hnotin) as (_ & _ & _ & Hsends & _).
  exact Hsends.
Defined.

(** X16.  Adding a new name and then removing it gives back the track list
    the session had: an accepted add-track for a name not in the list followed
    by a remove-track for that name, both with the caster token, leaves the
    names and their order as they were. *)
Theorem add_then_remove_restores_tracks (w1 w2 : World) (st : State)
    (add remove : Request) (d : SessionData) (cs name : string)
    (mid kind : option string) (sd : option JSON) :
  is_route add "POST" "/add-track" ->
  body add = AddTrackBody cs name mid kind sd ->
  valid_token st add d ->
  ok (upstream w1 (add_track_call w1 cs name mid kind sd)) = true ->
  is_route remove "POST" "/remove-track" ->
  body remove = RemoveTrackBody name ->
  authorization remove = authorization add ->
  ~ In name (tracks st) ->
  tracks (after (fetch w2 (after (fetch w1 st add)) remove)) = tracks st.
Proof.
  intros Ha Hba Hauth Hok Hr Hbr Hsame Hnotin.
  assert (Hfirst := add_track_succeeded w1 st add d cs name mid kind sd Ha Hba Hauth Hok).
  destruct Hauth as (Hd & tok & Htok & Hhdr).
  assert (Hnotin' : array_includes (track_list d) name = false).
  { destruct (array_includes (track_list d) name) eqn:Hin; [|reflexivity].
    apply array_includes_In in Hin. unfold tracks in Hnotin. rewrite Hd in Hnotin.
    contradiction. }
  rewrite Hnotin' in Hfirst. simpl in Hfirst. rewrite Hfirst. simpl after.
  destruct (remove_track_tracks w2 (put (assign st (set_trackNames d (push (track_list d) name))))
              remove (set_trackNames d (push (track_list d) name)) name Hr Hbr) as [Ht _].
  { split; [reflexivity|]. exists tok. split; [exact Htok | congruence]. }
  rewrite Ht. unfold tracks at 1. simpl. unfold track_list at 1. simpl.
  unfold tracks in *. rewrite Hd in *. now apply filter_after_push.
Qed.

Lemma add_then_remove_restores_tracks_witness :
  valid_token started add_v1 started_record /\
  tracks (after (fetch (world sfu_up (6, 7))
                   (after (fetch (world sfu_up (4, 5)) started add_v1)) remove_v1))
    = tracks started.
Proof.
  assert (Hauth : valid_token started add_v1 started_record).
  { split; [reflexivity|]. exists "tok". split; reflexivity. }
  split; [exact Hauth|].
  apply (add_then_remove_restores_tracks (world sfu_up (4, 5)) (world sfu_up (6, 7))
           started add_v1 remove_v1 started_record "sfu1" "v1" None None None);
    try reflexivity; try exact Hauth; try (repeat split).
  intros [].
Defined.

(** ** Frames that are not relayed, and the silence after a restart *)

(** X17.  [webSocketMessage] sends nothing, and fails nothing, for a
    binary frame, for a text frame that does not parse as JSON, for a frame
    from a socket that is not in the connection map, and for a frame whose
    [type] is not the string ["signal"] (a JSON [null] included). *)
Theorem other_frames_are_dropped (parse : string -> option JSON) (w : World)
    (st : State) (ws : Socket) (message : Message) :
  message = Binary \/
  (exists payload, message = Str payload /\
     (parse payload = None \/
      map_get ws (sessions st) = None \/
      exists data, parse payload = Some data /\
                   prop data "type" <> Some (JStr "signal"))) ->
  webSocketMessage parse w st ws message = [].
Proof.
  intros [-> | (payload & -> & [Hp | [Hs | (data & Hp & Ht)]])]; simpl.
  - reflexivity.
  - now rewrite Hp.
  - rewrite Hs. now destruct (parse payload).
  - rewrite Hp. destruct (map_get ws (sessions st)); [|reflexivity].
    destruct data; try reflexivity.
    destruct (prop (JObj props) "type") as [[| | |t| |]|]; try reflexivity.
    destruct (String.eqb_spec t "signal") as [->|]; [congruence | reflexivity].
Qed.

Lemma other_frames_are_dropped_witness :
  parse_one "hello" = None /\
  webSocketMessage parse_one (world sfu_up (0, 1)) four_sockets 3 (Str "hello") = [].
Proof.
  split; [reflexivity|].
  apply other_frames_are_dropped. right. exists "hello".
  split; [reflexivity | left; reflexivity].
Defined.

Lemma no_upgrade_keeps_sessions (st : State) (ev : Event) :
  (forall w req, ev = Fetch w req -> strict_eq (upgrade req) "websocket" = false) ->
  sessions st = [] ->
  sessions (step st ev) = [].
Proof.
  intros Hno Hs. destruct ev as [w req| | | |]; simpl; try (now rewrite ?Hs).
  destruct (fetch_sessions w st req) as [-> | [Hup _]]; [assumption|].
  rewrite (Hno w req eq_refl) in Hup. discriminate.
Qed.

(** X18.  The connection map does not survive a restart, and nothing but a
    new attach fills it again: after a restart, as long as no upgrade request
    arrives, no event makes the object send anything to any socket, neither
    the broadcasts of the caster's requests nor the relay of a signal from a
    socket that is still connected. *)
Theorem silent_until_reattached (parse : string -> option JSON) (st : State)
    (evs : list Event) (ev : Event) :
  (forall w req, In (Fetch w req) (ev :: evs) ->
     strict_eq (upgrade req) "websocket" = false) ->
  sessions (run (restart st) evs) = [] /\
  sends (emitted parse (run (restart st) evs) ev) = [].
Proof.
  intros Hno.
  assert (Hs : sessions (run (restart st) evs) = []).
  { assert (Hevs : forall w req, In (Fetch w req) evs ->
                     strict_eq (upgrade req) "websocket" = false)
      by (intros w req Hin; apply (Hno w req); now right).
    clear Hno. induction evs as [|e evs IH] using rev_ind; [reflexivity|].
    unfold run. rewrite fold_left_app. simpl.
    apply no_upgrade_keeps_sessions.
    - intros w req ->. apply (Hevs w req), in_or_app. right. now left.
    - apply IH. intros w req Hin. apply (Hevs w req), in_or_app. now left. }
  split; [exact Hs|].
  destruct ev as [w req|w ws message| | |]; simpl; try reflexivity.
  - assert (Hup : strict_eq (upgrade req) "websocket" = false)
      by (apply (Hno w req); now left).
    destruct (sends (effects (fetch w (run (restart st) evs) req))) as [|[s v] rest] eqn:Hsends;
      [reflexivity|].
    exfalso.
    assert (Hin : In (s, v) (sends (effects (fetch w (run (restart st) evs) req))))
      by (rewrite Hsends; now left).
    clear Hsends. revert Hin. unfold fetch. rewrite Hup.
    repeat match goal with
      | |- context [if ?c then _ else _] => destruct c
      end;
    unfold handle_init, handle_calls_session, handle_init_connection, handle_renegotiate,
      handle_add_track, handle_new_session, handle_pull_tracks, handle_viewer_renegotiate,
      handle_remove_track, handle_info, handle_calls_state, handle_viewer_calls_state;
    paths; simpl; rewrite ?sends_app, ?sends_broadcast; unfold open_sockets; simpl;
    rewrite ?Hs; simpl; try contradiction.
  - destruct message as [|payload]; [reflexivity|]. simpl.
    destruct (parse payload); [|reflexivity].
    unfold map_get. now rewrite Hs.
Qed.

Lemma silent_until_reattached_witness :
  sends (emitted parse_one
           (run (restart started) [Fetch (world sfu_up (4, 5)) create_sfu_session])
           (Fetch (world sfu_up (4, 5)) add_v1)) = [].
Proof.
  apply (silent_until_reattached parse_one started).
  intros w req [H | [H | []]]; injection H as <- <-; reflexivity.
Defined.

(** ** Pulling tracks and reading the SFU state *)

Lemma fetch_pull_tracks (w : World) (st : State) (req : Request) :
  is_route req "POST" "/pull-tracks" -> fetch w st req = handle_pull_tracks w st req.
Proof. dispatch. Qed.

Lemma fetch_calls_state (w : World) (st : State) (req : Request) :
  is_route req "GET" "/calls-state" -> fetch w st req = handle_calls_state w st req.
Proof. dispatch. Qed.

Lemma fetch_viewer_calls_state (w : World) (st : State) (req : Request) :
  is_route req "POST" "/viewer-calls-state" ->
  fetch w st req = handle_viewer_calls_state w st req.
Proof. dispatch. Qed.

(** X19.  [pull-tracks] needs no token but needs a link.  On a session
    without an SFU session id (no record, id unset or empty) it answers 404
    [No active session] without calling the SFU.  On a linked session it makes
    exactly one upstream call, which asks the viewer's SFU session for the
    remote track of the caster's SFU session under the requested name, or
    under ["*"] when the name is missing or empty; a success is returned as
    the SFU gave it, and nothing in the object changes either way. *)
Theorem pull_tracks_needs_a_link (w : World) (st : State) (req : Request)
    (viewer : string) (name : option string) :
  is_route req "POST" "/pull-tracks" ->
  body req = PullTracksBody viewer name ->
  (link st = None \/ link st = Some "" ->
   fetch w st req = respond (plain "No active session" 404) st []) /\
  (forall c, link st = Some c -> c <> "" ->
     after (fetch w st req) = st /\
     effects (fetch w st req) = [EFetch (pull_call w viewer (Some c) name)] /\
     (ok (upstream w (pull_call w viewer (Some c) name)) = true ->
      outcome (fetch w st req) =
        Returned (json_response (u_json (upstream w (pull_call w viewer (Some c) name)))))) /\
  u_body (pull_call w viewer (link st) None) = u_body (pull_call w viewer (link st) (Some "")) /\
  u_body (pull_call w viewer (link st) None) = u_body (pull_call w viewer (link st) (Some "*")).
Proof.
  intros Hroute Hbody. rewrite (fetch_pull_tracks _ _ _ Hroute).
  unfold handle_pull_tracks, link. rewrite Hbody.
  split; [|split; [|split; reflexivity]].
  - destruct (sessionData st) as [d|]; [|reflexivity].
    intros [-> | ->]; reflexivity.
  - intros c Hc Hne. destruct (sessionData st) as [d|]; [|discriminate].
    rewrite Hc. unfold pull_call. simpl.
    destruct (String.eqb_spec c ""); [contradiction|]. simpl.
    match goal with |- context [ok ?r] => destruct (ok r) end; simpl;
      repeat split; try reflexivity; intros; try reflexivity; discriminate.
Qed.

Lemma pull_tracks_needs_a_link_witness :
  body pull_all = PullTracksBody "viewer1" None /\
  fetch (world sfu_up (4, 5)) started pull_all =
    respond (plain "No active session" 404) started [] /\
  effects (fetch (world sfu_up (4, 5)) linked pull_all) =
    [EFetch (pull_call (world sfu_up (4, 5)) "viewer1" (Some "sfu1") None)].
Proof.
  destruct (pull_tracks_needs_a_link (world sfu_up (4, 5)) started pull_all "viewer1" None
              (conj eq_refl (conj eq_refl eq_refl)) eq_refl) as (Hnone & _).
  destruct (pull_tracks_needs_a_link (world sfu_up (4, 5)) linked pull_all "viewer1" None
              (conj eq_refl (conj eq_refl eq_refl)) eq_refl) as (_ & Hlinked & _).
  split; [reflexivity | split; [exact (Hnone (or_introl eq_refl))|]].
  exact (proj1 (proj2 (Hlinked "sfu1" eq_refl ltac:(discriminate)))).
Defined.

(** X20.  [GET .../calls-state] is guarded like the caster's requests and
    needs a link: without the caster token it answers 401; with it, on a
    session without SFU session id, it answers 200 [{error:"No Calls
    session"}] without calling the SFU; with it, on a linked session, it asks
    the SFU for the state of the caster's session and nothing else.  In every
    case the object is left as it was. *)
Theorem calls_state_is_guarded (w : World) (st : State) (req : Request) :
  is_route req "GET" "/calls-state" ->
  after (fetch w st req) = st /\
  (not_authorized st req ->
   fetch w st req = respond (plain "Unauthorized" 401) st []) /\
  (forall d, valid_token st req d ->
     (callsSessionId d = None \/ callsSessionId d = Some "" ->
      fetch w st req =
        respond (json_response (obj [("error", str "No Calls session")])) st []) /\
     (forall c, callsSessionId d = Some c -> c <> "" ->
        effects (fetch w st req) =
          [EFetch (calls w "GET" ("/sessions/" ++ c) None None)])).
Proof.
  intros Hroute. rewrite (fetch_calls_state _ _ _ Hroute). unfold handle_calls_state.
  split; [|split].
  - paths; reflexivity.
  - intros Hno. now rewrite (bearer_refused _ _ Hno).
  - intros d Hauth. rewrite (bearer_valid _ _ _ Hauth). split.
    + intros [-> | ->]; reflexivity.
    + intros c -> Hne. simpl. destruct (String.eqb_spec c ""); [contradiction|].
      simpl. now destruct (ok _).
Qed.

Lemma calls_state_is_guarded_witness :
  is_route (http_get "/api/calls-state") "GET" "/calls-state" /\
  not_authorized linked (http_get "/api/calls-state") /\
  fetch (world sfu_up (4, 5)) linked (http_get "/api/calls-state") =
    respond (plain "Unauthorized" 401) linked [].
Proof.
  assert (Hroute : is_route (http_get "/api/calls-state") "GET" "/calls-state")
    by (repeat split).
  assert (Hno : not_authorized linked (http_get "/api/calls-state")).
  { right. exists linked_record, "tok". repeat split; discriminate. }
  split; [exact Hroute | split; [exact Hno|]].
  exact (proj1 (proj2 (calls_state_is_guarded (world sfu_up (4, 5)) linked _ Hroute)) Hno).
Defined.

(** ** What the relays return *)

Ltac relay_paths :=
  paths;
  cbn [outcome respond throw effects after status content plain json_response];
  let H := fresh in
  let Hs := fresh in
  intros H Hs; try discriminate H; injection H as <-; try discriminate Hs;
  cbn [status content plain json_response] in *.




Lemma includes_cons (c : ascii) (s t : string) :
  includes s t = true -> includes (String c s) t = true.
Proof. intros H. simpl. rewrite H. apply orb_true_r. Qed.

Ltac with_text :=
  relay_paths;
  (split; [reflexivity|]); eexists; eexists;
  (split; [reflexivity
          | split; [now apply negb_true_iff
                   | split; [reflexivity
                            | repeat apply includes_cons;
                              first [apply includes_app | exact (includes_app "" _)]]]]).

(** X22.  On seven routes a 500 carries the SFU's error text: when
    [init-connection], [renegotiate], [add-track], [new-session],
    [viewer-renegotiate], [calls-state] or [viewer-calls-state] answers 500, it
    has made exactly one upstream call, that call was answered with a
    non-success status, and the body of the 500 is a fixed prefix followed by
    the text of that answer; the object is left as it was. *)
Theorem failures_carry_the_upstream_text (w : World) (st : State) (req : Request)
    (r : Response) :
  is_route req "POST" "/init-connection" \/
  is_route req "POST" "/renegotiate" \/
  is_route req "POST" "/add-track" \/
  is_route req "POST" "/new-session" \/
  is_route req "POST" "/viewer-renegotiate" \/
  is_route req "GET" "/calls-state" \/
  is_route req "POST" "/viewer-calls-state" ->
  outcome (fetch w st req) = Returned r ->
  status r = 500 ->
  after (fetch w st req) = st /\
  exists rq text,
    effects (fetch w st req) = [EFetch rq] /\
    ok (upstream w rq) = false /\
    content r = Text text /\
    includes text (u_text (upstream w rq)) = true.
Proof.
  intros [H | [H | [H | [H | [H | [H | H]]]]]].
  - rewrite (fetch_init_connection _ _ _ H). unfold handle_init_connection. with_text.
  - rewrite (fetch_renegotiate _ _ _ H). unfold handle_renegotiate. with_text.
  - rewrite (fetch_add_track _ _ _ H). unfold handle_add_track. with_text.
  - rewrite (fetch_new_session _ _ _ H). unfold handle_new_session. with_text.
  - rewrite (fetch_viewer_renegotiate _ _ _ H). unfold handle_viewer_renegotiate. with_text.
  - rewrite (fetch_calls_state _ _ _ H). unfold handle_calls_state. with_text.
  - rewrite (fetch_viewer_calls_state _ _ _ H). unfold handle_viewer_calls_state. with_text.
Qed.

Lemma failures_carry_the_upstream_text_witness :
  is_route (http_post "/api/new-session" None NoBody) "POST" "/new-session" /\
  outcome (fetch (world sfu_down (4, 5)) started (http_post "/api/new-session" None NoBody)) =
    Returned (plain "Failed to create new session: quota exceeded" 500) /\
  after (fetch (world sfu_down (4, 5)) started (http_post "/api/new-session" None NoBody)) =
    started.
Proof.
  assert (Hroute : is_route (http_post "/api/new-session" None NoBody) "POST" "/new-session")
    by (repeat split).
  split; [exact Hroute | split; [reflexivity|]].
  exact (proj1 (failures_carry_the_upstream_text (world sfu_down (4, 5)) started _
                  (plain "Failed to create new session: quota exceeded" 500)
                  (or_intror (or_intror (or_intror (or_introl Hroute)))) eq_refl eq_refl)).
Defined.

(** ** The Worker: ids, paths and forwarding *)

Lemma char_at_in_class (i : nat) :
  i < 36 ->
  exists c, Worker.char_at i = String c EmptyString /\ Worker.id_char c = true.
Proof.
  intros Hi. unfold Worker.char_at.
  do 36 (destruct i as [|i]; [eexists; split; reflexivity|]).
  lia.
Qed.

Lemma id_char_not_slash (c : ascii) :
  Worker.id_char c = true -> Ascii.eqb c "/" = false.
Proof.
  intros H. destruct (Ascii.eqb_spec c "/") as [->|]; [discriminate H | reflexivity].
Qed.

Lemma split_nonempty (sep : ascii) (s : string) : Worker.split sep s <> [].
Proof.
  destruct s as [|c s]; simpl; [discriminate|].
  destruct (Ascii.eqb c sep); [discriminate|].
  destruct (Worker.split sep s); discriminate.
Qed.

Lemma split_app (sep : ascii) (a b : string) :
  forallb (fun c => negb (Ascii.eqb c sep)) (list_ascii_of_string a) = true ->
  Worker.split sep (a ++ String sep b) = a :: Worker.split sep b.
Proof.
  induction a as [|c a IH]; simpl; intros H.
  - now rewrite Ascii.eqb_refl.
  - apply andb_true_iff in H as [Hc Ha]. apply negb_true_iff in Hc.
    now rewrite Hc, (IH Ha).
Qed.

Lemma join_split (s : string) : Worker.join (Worker.split "/" s) = s.
Proof.
  unfold Worker.join. induction s as [|c s IH]; simpl; [reflexivity|].
  destruct (Ascii.eqb_spec c "/") as [->|Hne].
  - simpl. destruct (Worker.split "/" s) eqn:Hs; [now apply split_nonempty in Hs|].
    now rewrite IH.
  - destruct (Worker.split "/" s) as [|h t] eqn:Hs; [now apply split_nonempty in Hs|].
    simpl in *. destruct t; simpl in *; now rewrite <- IH.
Qed.

Lemma substring_prefix (x y : string) : substring 0 (String.length x) (x ++ y) = x.
Proof. induction x as [|c x IH]; simpl; [now destruct y | now rewrite IH]. Qed.

Lemma get_skip (p a : string) (k : nat) :
  String.get (String.length p + k) (p ++ a) = String.get k a.
Proof. induction p as [|c p IH]; simpl; auto. Qed.

Lemma is_id_length (id : string) : Worker.is_id id = true -> String.length id = 5.
Proof.
  unfold Worker.is_id. intros H. apply andb_true_iff in H as [H _].
  now apply Nat.eqb_eq in H.
Qed.

Lemma is_id_no_slash (id : string) :
  Worker.is_id id = true ->
  forallb (fun c => negb (Ascii.eqb c "/")) (list_ascii_of_string id) = true.
Proof.
  unfold Worker.is_id. intros H. apply andb_true_iff in H as [_ H].
  rewrite forallb_forall in *. intros c Hc.
  now rewrite (id_char_not_slash c (H c Hc)).
Qed.

(** X23.  A request for [/] is answered with a 302 to [/~<id>] on the same
    origin and touches no object.  When every random draw is a position of
    [chars], the id is five characters of [[a-z0-9]], so the path of the
    redirect is matched by the cast-page pattern, which reads the same id back
    from it. *)
Theorem root_redirects_to_a_cast_page
    (getCastPageHTML : string -> string -> option string -> string)
    (getViewPageHTML : string -> string -> string)
    (draw : nat -> nat) (w : World) (objects : Worker.Namespace) (origin : string)
    (req : Request) :
  pathname req = "/" ->
  (forall k, k < 5 -> draw k < 36) ->
  Worker.fetch getCastPageHTML getViewPageHTML draw w objects origin req =
    (Worker.Redirect (origin ++ "/~" ++ Worker.generateSessionId draw) 302, objects, []) /\
  Worker.is_id (Worker.generateSessionId draw) = true /\
  Worker.match_page "~" ("/~" ++ Worker.generateSessionId draw) = true /\
  Worker.slice_from 2 ("/~" ++ Worker.generateSessionId draw) =
    Worker.generateSessionId draw.
Proof.
  intros Hpath Hdraw.
  assert (Hid : Worker.is_id (Worker.generateSessionId draw) = true).
  { unfold Worker.generateSessionId. simpl.
    destruct (char_at_in_class (draw 0)) as (c0 & -> & H0); [apply Hdraw; lia|].
    destruct (char_at_in_class (draw 1)) as (c1 & -> & H1); [apply Hdraw; lia|].
    destruct (char_at_in_class (draw 2)) as (c2 & -> & H2); [apply Hdraw; lia|].
    destruct (char_at_in_class (draw 3)) as (c3 & -> & H3); [apply Hdraw; lia|].
    destruct (char_at_in_class (draw 4)) as (c4 & -> & H4); [apply Hdraw; lia|].
    unfold Worker.is_id. simpl. now rewrite H0, H1, H2, H3, H4. }
  split; [|split; [exact Hid | split]].
  - unfold Worker.fetch. now rewrite Hpath.
  - simpl. exact Hid.
  - unfold Worker.slice_from. simpl. rewrite Nat.sub_0_r. apply substring_all.
Qed.

Lemma root_redirects_to_a_cast_page_witness :
  Worker.generateSessionId (fun k => 7 * k) = "ahov2" /\
  Worker.match_page "~" ("/~" ++ Worker.generateSessionId (fun k => 7 * k)) = true.
Proof.
  split; [reflexivity|].
  exact (proj1 (proj2 (proj2
    (root_redirects_to_a_cast_page (fun _ _ _ => "cast") (fun _ _ => "view")
       (fun k => 7 * k) (world sfu_up (0, 1)) (fun _ => initial) "https://cast.example"
       (http_get "/") eq_refl ltac:(intros k Hk; cbv beta; lia))))).
Defined.

Lemma api_path_parts (id rest : string) :
  Worker.is_id id = true ->
  Worker.split "/" ("/api/" ++ id ++ "/" ++ rest) =
    EmptyString :: "api" :: id :: Worker.split "/" rest.
Proof.
  intros Hid.
  change ("/api/" ++ id ++ "/" ++ rest)
    with (EmptyString ++ String "/" ("api" ++ String "/" (id ++ String "/" rest))).
  rewrite split_app by reflexivity.
  rewrite split_app by reflexivity.
  now rewrite (split_app "/" id rest (is_id_no_slash id Hid)).
Qed.

Lemma api_path_matches (id rest : string) :
  Worker.is_id id = true ->
  Worker.match_api ("/api/" ++ id ++ "/" ++ rest) = true.
Proof.
  intros Hid. pose proof (is_id_length id Hid) as Hlen. unfold Worker.match_api.
  rewrite prefix_app_self.
  replace (substring 5 5 ("/api/" ++ id ++ "/" ++ rest)) with id.
  - rewrite Hid.
    change 10 with (String.length "/api/" + 5). rewrite get_skip, <- Hlen.
    replace (String.length id) with (String.length id + 0) by lia.
    now rewrite get_skip.
  - change 5 with (String.length "/api/" + 0) at 1. rewrite substring_skip, <- Hlen.
    now rewrite substring_prefix.
Qed.

(** X24.  A request for [/api/<id>/<rest>], with [<id>] five characters of
    [[a-z0-9]], is handed to the object named [<id>] and to no other, with
    its method, headers, query and body, on the path [/<rest>]; the Worker
    answers what the object answers. *)
Theorem api_requests_reach_their_object
    (getCastPageHTML : string -> string -> option string -> string)
    (getViewPageHTML : string -> string -> string)
    (draw : nat -> nat) (w : World) (objects : Worker.Namespace) (origin : string)
    (req : Request) (id rest : string) :
  Worker.is_id id = true ->
  pathname req = "/api/" ++ id ++ "/" ++ rest ->
  Worker.fetch getCastPageHTML getViewPageHTML draw w objects origin req =
    (Worker.FromObject (outcome (fetch w (objects id) (Worker.forwarded req ("/" ++ rest)))),
     Worker.update objects id (after (fetch w (objects id) (Worker.forwarded req ("/" ++ rest)))),
     effects (fetch w (objects id) (Worker.forwarded req ("/" ++ rest)))) /\
  (forall other, other <> id ->
     snd (fst (Worker.fetch getCastPageHTML getViewPageHTML draw w objects origin req)) other
       = objects other).
Proof.
  intros Hid Hpath.
  assert (Hfetch :
    Worker.fetch getCastPageHTML getViewPageHTML draw w objects origin req =
    (Worker.FromObject (outcome (fetch w (objects id) (Worker.forwarded req ("/" ++ rest)))),
     Worker.update objects id (after (fetch w (objects id) (Worker.forwarded req ("/" ++ rest)))),
     effects (fetch w (objects id) (Worker.forwarded req ("/" ++ rest))))).
  { unfold Worker.fetch. rewrite Hpath.
    change (String.eqb ("/api/" ++ id ++ "/" ++ rest) "/") with false.
    change (Worker.match_page "~" ("/api/" ++ id ++ "/" ++ rest)) with false.
    change (Worker.match_page "-" ("/api/" ++ id ++ "/" ++ rest)) with false.
    cbv iota. rewrite (api_path_matches id rest Hid), (api_path_parts id rest Hid).
    cbn [nth skipn]. rewrite join_split. reflexivity. }
  split; [exact Hfetch|].
  intros other Hne. rewrite Hfetch. cbn [fst snd]. unfold Worker.update.
  destruct (String.eqb_spec other id); [contradiction | reflexivity].
Qed.

Lemma api_requests_reach_their_object_witness :
  Worker.is_id "ahov2" = true /\
  fst (fst (Worker.fetch (fun _ _ _ => "cast") (fun _ _ => "view") (fun k => k)
              (world sfu_up (0, 1)) (fun _ => started) "https://cast.example"
              (http_post "/api/ahov2/add-track" None NoBody))) =
    Worker.FromObject (Returned (plain "Unauthorized" 401)).
Proof.
  split; [reflexivity|].
  rewrite (proj1 (api_requests_reach_their_object (fun _ _ _ => "cast") (fun _ _ => "view")
                    (fun k => k) (world sfu_up (0, 1)) (fun _ => started)
                    "https://cast.example" (http_post "/api/ahov2/add-track" None NoBody)
                    "ahov2" "add-track" eq_refl eq_refl)).
  reflexivity.
Defined.

(** X25.  A request for [/~<id>] initializes the object named [<id>] and
    serves the cast page made from the id, the origin and that object's caster
    token; no other object is touched.  Visiting the page again serves the
    same page, with the same token, and changes nothing. *)
Theorem cast_page_carries_the_token
    (getCastPageHTML : string -> string -> option string -> string)
    (getViewPageHTML : string -> string -> string)
    (draw : nat -> nat) (w w' : World) (objects : Worker.Namespace) (origin : string)
    (req : Request) (id : string) :
  Worker.is_id id = true ->
  pathname req = "/~" ++ id ->
  reachable (objects id) ->
  exists d tok objects' fx,
    Worker.fetch getCastPageHTML getViewPageHTML draw w objects origin req =
      (Worker.Html (getCastPageHTML id origin (Some tok)), objects', fx) /\
    sessionData (objects' id) = Some d /\
    casterToken d = Some tok /\
    (forall other, other <> id -> objects' other = objects other) /\
    exists objects'',
      Worker.fetch getCastPageHTML getViewPageHTML draw w' objects' origin req =
        (Worker.Html (getCastPageHTML id origin (Some tok)), objects'', []) /\
      forall name, objects'' name = objects' name.
Proof.
  intros Hid Hpath Hr.
  assert (Hpage : forall w0 ns,
    Worker.fetch getCastPageHTML getViewPageHTML draw w0 ns origin req =
    match outcome (handle_init w0 (ns id)) with
    | Returned {| content := Json JNull |} =>
        (Worker.Rejected, Worker.update ns id (after (handle_init w0 (ns id))),
         effects (handle_init w0 (ns id)))
    | Returned {| content := Json v |} =>
        (Worker.Html (getCastPageHTML id origin (as_string (prop v "casterToken"))),
         Worker.update ns id (after (handle_init w0 (ns id))),
         effects (handle_init w0 (ns id)))
    | _ => (Worker.Rejected, Worker.update ns id (after (handle_init w0 (ns id))),
            effects (handle_init w0 (ns id)))
    end).
  { intros w0 ns. unfold Worker.fetch. rewrite Hpath.
    assert (Hslice : Worker.slice_from 2 ("/~" ++ id) = id).
    { unfold Worker.slice_from. simpl. rewrite Nat.sub_0_r. apply substring_all. }
    rewrite Hslice.
    change (String.eqb ("/~" ++ id) "/") with false. cbv iota.
    change (Worker.match_page "~" ("/~" ++ id)) with (Worker.is_id id). rewrite Hid.
    unfold CastSession_fetch.
    rewrite (fetch_init w0 (ns id) Worker.init_request (conj eq_refl (conj eq_refl eq_refl))).
    reflexivity. }
  destruct (init_reply w (objects id) (reachable_consistent _ Hr))
    as (d & tok & Hd & Htok & Hout & _).
  exists d, tok, (Worker.update objects id (after (handle_init w (objects id)))),
    (effects (handle_init w (objects id))).
  assert (Hself : Worker.update objects id (after (handle_init w (objects id))) id =
                  after (handle_init w (objects id))).
  { unfold Worker.update. now rewrite String.eqb_refl. }
  split; [rewrite Hpage, Hout; reflexivity|].
  split; [now rewrite Hself|]. split; [exact Htok|]. split.
  - intros other Hne. unfold Worker.update.
    destruct (String.eqb_spec other id); [contradiction | reflexivity].
  - eexists. rewrite Hpage, Hself.
    assert (Hc : consistent (after (handle_init w (objects id)))).
    { pose proof (reachable_consistent _
                    (reachable_step (objects id) (Fetch w Worker.init_request) Hr)) as Hc.
      simpl in Hc.
      now rewrite (fetch_init w (objects id) Worker.init_request
                     (conj eq_refl (conj eq_refl eq_refl))) in Hc. }
    destruct (init_reply w' _ Hc) as (_ & _ & _ & _ & _ & Hagain).
    rewrite (Hagain d Hd), Htok. split; [reflexivity|].
    intros name. unfold Worker.update at 1. cbn [after respond].
    destruct (String.eqb_spec name id) as [->|]; [now rewrite Hself | reflexivity].
Qed.

Lemma cast_page_carries_the_token_witness :
  Worker.is_id "ahov2" = true /\
  reachable initial /\
  exists tok,
    fst (fst (Worker.fetch (fun id origin tok => id ++ template tok) (fun _ _ => "view")
                (fun k => k) (world sfu_up (0, 1)) (fun _ => initial) "https://cast.example"
                (http_get "/~ahov2"))) = Worker.Html ("ahov2" ++ tok).
Proof.
  assert (Hr : reachable initial) by (exists []; reflexivity).
  split; [reflexivity | split; [exact Hr|]].
  destruct (cast_page_carries_the_token (fun id origin tok => id ++ template tok)
              (fun _ _ => "view") (fun k => k) (world sfu_up (0, 1)) (world sfu_up (0, 1))
              (fun _ => initial) "https://cast.example" (http_get "/~ahov2") "ahov2"
              eq_refl eq_refl Hr) as (d & tok & objects' & fx & Hfetch & _).
  exists tok. now rewrite Hfetch.
Defined.
